(** * Emotion-detection web app: the frame pipeline and its SQLite log

    A shallow embedding of [app.py]: the [users] table created by
    [init_db], the insert of [save_user_result], the query behind the
    [/users] route, and the generator [generate_frames] that reads the
    camera, classifies, annotates in place, writes the artifact, logs and
    yields the multipart chunk.

    OpenCV, DeepFace, the clock and SQLite are collaborators of the
    program.  The camera, the classifier, the text renderer and the JPEG
    encoder are parameters of the development; SQLite is modelled as far
    as the statements of [app.py] exercise it (type binding of the
    [sqlite3] module, TEXT affinity, NOT NULL, CHECK with SQL's
    three-valued logic, AUTOINCREMENT, ORDER BY, and the write lock a
    connection keeps when [conn.close()] is skipped).  The path
    [captured] that [os.makedirs] meets is part of the environment. *)

From Stdlib Require Import ZArith Lia Ascii String.
From stdpp Require Import base option list strings gmap pretty sorting.

Open Scope Z_scope.

(** ** Python values and exceptions *)

Module Py.

(** The values that reach [save_user_result] or sit in a DeepFace result
    dictionary: [None], a [str], an [int], or an object of another type
    for which [sqlite3] has no adapter (a dict, a numpy array, ...),
    which is only known by its [str()] text.  [float], [bytes] and
    objects that [sqlite3] adapts ([datetime], [date], objects with
    [__conform__]) are outside the model. *)
Inductive pyval :=
| PyNone
| PyStr (s : string)
| PyInt (z : Z)
| PyObj (repr : string).

(** A violated table constraint, by kind and column. *)
Inductive constraint :=
| NotNull (col : string)
| CheckFailed (col : string).

Inductive exn :=
| IntegrityError (c : constraint)
| OperationalError (msg : string)
| ProgrammingError (msg : string)
| OverflowError
| IndexError
| KeyError (key : string)
| OtherError (what : string).

(** [f'{v}']: the text an f-string substitutes for [v]. *)
Definition py_str (v : pyval) : string :=
  match v with
  | PyNone => "None"
  | PyStr s => s
  | PyInt z => pretty z
  | PyObj r => r
  end.

(** Texts made of decimal digits and minus signs only, as [str(n)] of an
    [int] is. *)
Fixpoint numeral (s : string) : Prop :=
  match s with
  | EmptyString => True
  | String c s' => (c = "-"%char ∨ ∃ n, c = pretty_N_char n) ∧ numeral s'
  end.

#[global] Instance pyval_eq_dec : EqDecision pyval.
Proof. solve_decision. Defined.

End Py.
Export Py.

(** ** The SQLite store *)

Module Sqlite.

Definition INT64_MAX : Z := 9223372036854775807.
Definition INT64_MIN : Z := -9223372036854775808.

(** A value as the [sqlite3] module hands it to the engine. *)
Inductive sqlval :=
| SqlNull
| SqlInteger (z : Z)
| SqlText (s : string).

(** Parameter binding of [cursor.execute(sql, params)].  The text of the
    ProgrammingError, which names the parameter and the type, is not
    modelled. *)
Definition bind (v : pyval) : exn + sqlval :=
  match v with
  | PyNone => inr SqlNull
  | PyStr s => inr (SqlText s)
  | PyInt z =>
      if bool_decide (INT64_MIN ≤ z ≤ INT64_MAX) then inr (SqlInteger z)
      else inl OverflowError
  | PyObj _ => inl (ProgrammingError "type is not supported")
  end.

(** Column affinity TEXT: a number is stored as its text; NULL stays
    NULL.  [None] is SQL NULL. *)
Definition text_affinity (v : sqlval) : option string :=
  match v with
  | SqlNull => None
  | SqlInteger z => Some (pretty z)
  | SqlText s => Some s
  end.

(** One row of
<<
    CREATE TABLE IF NOT EXISTS users (
        id INTEGER PRIMARY KEY AUTOINCREMENT,
        name TEXT NOT NULL,
        usage_mode TEXT CHECK(usage_mode IN ('online','offline')),
        image_path TEXT,
        detected_emotion TEXT,
        timestamp DATETIME DEFAULT CURRENT_TIMESTAMP)
>>
    [timestamp] is the UTC second at which the insert ran.  SQLite keeps
    it as the text [YYYY-MM-DD HH:MM:SS], whose collation order is the
    order of these seconds. *)
Record row := Row {
  id : Z;
  name : string;
  usage_mode : option string;
  image_path : option string;
  detected_emotion : option string;
  timestamp : Z
}.

#[global] Instance row_eq_dec : EqDecision row.
Proof. solve_decision. Defined.

(** The table: its rows in rowid (scan) order, and the AUTOINCREMENT
    counter that SQLite keeps in [sqlite_sequence]. *)
Record table := Table {
  rows : list row;
  seq : Z
}.

(** The database file: [None] while the [users] table does not exist. *)
Abbreviation database := (option table).

Definition db_rows (db : database) : list row :=
  match db with
  | None => []
  | Some tbl => rows tbl
  end.

Definition create_table_if_not_exists (db : database) : database :=
  match db with
  | None => Some (Table [] 0)
  | Some tbl => Some tbl
  end.

Definition max_rowid (rs : list row) : Z :=
  foldr (λ r m, Z.max (id r) m) 0 rs.

(** AUTOINCREMENT: one more than the largest rowid that ever existed;
    the insert fails with SQLITE_FULL once that is the largest integer. *)
Definition largest_rowid_ever (tbl : table) : Z :=
  Z.max (seq tbl) (max_rowid (rows tbl)).

Definition new_rowid (tbl : table) : exn + Z :=
  let m := largest_rowid_ever tbl in
  if bool_decide (m < INT64_MAX) then inr (m + 1)
  else inl (OperationalError "database or disk is full").

(** [usage_mode IN ('online','offline')] in three-valued logic: [None]
    is SQL's unknown. *)
Definition usage_mode_in_list (v : option string) : option bool :=
  match v with
  | None => None
  | Some s => Some (bool_decide (s = "online") || bool_decide (s = "offline"))
  end.

(** A CHECK constraint is violated only when its expression is false;
    true and unknown both pass. *)
Definition check_passes (r : option bool) : bool :=
  match r with
  | Some false => false
  | _ => true
  end.

(** [INSERT INTO users (name, usage_mode, image_path, detected_emotion)
    VALUES (?, ?, ?, ?)] with the four bound values, at UTC second [now].
    The rowid is drawn first, then NOT NULL and CHECK are verified. *)
Definition insert_users (vname vmode vpath vemotion : sqlval) (now : Z)
    (tbl : table) : exn + table :=
  match new_rowid tbl with
  | inl e => inl e
  | inr rowid =>
      match text_affinity vname with
      | None => inl (IntegrityError (NotNull "name"))
      | Some n =>
          let mode := text_affinity vmode in
          if check_passes (usage_mode_in_list mode) then
            inr (Table (rows tbl ++
                          [Row rowid n mode (text_affinity vpath)
                               (text_affinity vemotion) now])
                       rowid)
          else inl (IntegrityError (CheckFailed "usage_mode"))
      end
  end.

(** The sorter behind ORDER BY timestamp DESC: a row goes in front of
    the first row whose key is not larger, so rows with equal keys keep
    their scan order. *)
Fixpoint sorter_insert (r : row) (sorted : list row) : list row :=
  match sorted with
  | [] => [r]
  | x :: rest =>
      if bool_decide (timestamp x ≤ timestamp r) then r :: x :: rest
      else x :: sorter_insert r rest
  end.

Definition order_by_timestamp_desc (rs : list row) : list row :=
  foldr sorter_insert [] rs.

(** Listing order and insertion order, on the timestamps. *)
Definition newer_first (r1 r2 : row) : Prop := timestamp r2 ≤ timestamp r1.

Definition older_than (r1 r2 : row) : Prop := timestamp r1 < timestamp r2.

End Sqlite.
Export Sqlite.

(** ** [app.py]: the persistence log *)

(** [init_db()]: the only statement is CREATE TABLE IF NOT EXISTS. *)
Definition init_db (db : database) : database :=
  create_table_if_not_exists db.

(** [save_user_result(name, usage_mode, image_path, emotion)] run at UTC
    second [now].  The statement is prepared (the table must exist), the
    four parameters are bound in order, and the insert runs; [commit] is
    reached only when [execute] returned, so a failed call leaves the
    database as it was.  This is the call on a database whose write lock
    no other open connection holds; [save_user_result_env] below adds the
    lock that the connection of a failed call may keep. *)
Definition save_user_result (name usage_mode image_path emotion : pyval)
    (now : Z) (db : database) : (exn + unit) * database :=
  match db with
  | None => (inl (OperationalError "no such table: users"), db)
  | Some tbl =>
      match bind name with
      | inl e => (inl e, db)
      | inr vname =>
      match bind usage_mode with
      | inl e => (inl e, db)
      | inr vmode =>
      match bind image_path with
      | inl e => (inl e, db)
      | inr vpath =>
      match bind emotion with
      | inl e => (inl e, db)
      | inr vemotion =>
          match insert_users vname vmode vpath vemotion now tbl with
          | inl e => (inl e, db)
          | inr tbl' => (inr (), Some tbl')
          end
      end end end end
  end.

(** What a TEXT column holds after a successful insert of the Python
    value [v]. *)
Definition stored_text (v : pyval) : option string :=
  match bind v with
  | inr s => text_affinity s
  | inl _ => None
  end.

(** Whether the [sqlite3] module can bind [v]. *)
Definition bindable (v : pyval) : bool :=
  match bind v with
  | inr _ => true
  | inl _ => false
  end.

(** The query of the [/users] route,
    [SELECT * FROM users ORDER BY timestamp DESC] followed by [fetchall];
    the route then renders one table row per fetched row, in this order. *)
Definition users_rows (db : database) : exn + list row :=
  match db with
  | None => inl (OperationalError "no such table: users")
  | Some tbl => inr (order_by_timestamp_desc (rows tbl))
  end.

(** ** [app.py]: the frame pipeline *)

(** What [datetime.now()] returns: naive local time. *)
Record datetime := DateTime {
  year : nat;
  month : nat;
  day : nat;
  hour : nat;
  minute : nat;
  second : nat;
  microsecond : nat
}.

Definition digit (n : nat) : ascii :=
  ascii_of_nat (48 + n `mod` 10).

(** [%m], [%d], [%H], [%M], [%S]: two digits, zero padded. *)
Definition two_digits (n : nat) : string :=
  String (digit (n `div` 10)) (String (digit n) "").

(** [%Y] for the four-digit years [datetime.now()] returns. *)
Definition four_digits (n : nat) : string :=
  String (digit (n `div` 1000)) (String (digit (n `div` 100)) (two_digits n)).

(** [d.strftime('%Y%m%d_%H%M%S')]. *)
Definition strftime (d : datetime) : string :=
  four_digits (year d) +:+ two_digits (month d) +:+ two_digits (day d) +:+ "_"
  +:+ two_digits (hour d) +:+ two_digits (minute d) +:+ two_digits (second d).

(** [f"captured/{datetime.now().strftime('%Y%m%d_%H%M%S')}.jpg"]. *)
Definition image_filename (d : datetime) : string :=
  "captured/" +:+ strftime d +:+ ".jpg".

(** Two clock readings within one wall-clock second. *)
Definition same_second (d1 d2 : datetime) : Prop :=
  year d1 = year d2 ∧ month d1 = month d2 ∧ day d1 = day d2 ∧
  hour d1 = hour d2 ∧ minute d1 = minute d2 ∧ second d1 = second d2.

(** What [DeepFace.analyze] does on a frame: it raises, or it returns a
    list with one dictionary per face. *)
Inductive analysis :=
| Raises (e : exn)
| Returns (faces : list (gmap string pyval)).

Definition crlf : list Byte.byte := [Byte.x0d; Byte.x0a].

(** The multipart chunk
    [b'--frame\r\nContent-Type: image/jpeg\r\n\r\n' + frame + b'\r\n']. *)
Definition chunk (jpeg : list Byte.byte) : list Byte.byte :=
  list_byte_of_string "--frame" ++ crlf ++
  list_byte_of_string "Content-Type: image/jpeg" ++ crlf ++ crlf ++
  jpeg ++ crlf.

(** How a run of the generator ends: the loop reached [break], or an
    exception left the generator. *)
Inductive ending :=
| StopIteration
| Propagated (e : exn).

Section Pipeline.

(** The contents of a numpy image array. *)
Context {image : Type}.

(** [DeepFace.analyze(frame, actions=['emotion'], enforce_detection=False)]. *)
Variable analyze : image → analysis.
(** [cv2.putText] with the fixed position, font, scale, colour and
    thickness of [app.py]: the pixels after drawing [text]. *)
Variable putText : image → string → image.
(** [cv2.imencode('.jpg', frame)[1].tobytes()]. *)
Variable imencode : image → list Byte.byte.

(** One successful [cap.read()] with the clock readings of its
    iteration: [wall] is what [datetime.now()] returns, [utc] the second
    SQLite's CURRENT_TIMESTAMP reads at the insert. *)
Record tick := Tick {
  frame : image;
  wall : datetime;
  utc : Z
}.

(** The mutable world of the generator: the image arrays by object
    identity (an array is its index in [heap]), the files under
    [captured/], and the database file. *)
Record state := State {
  heap : list image;
  files : gmap string image;
  dbfile : database
}.

(** State and exceptions. *)
Definition M (A : Type) : Type := state → (exn + A) * state.

#[global] Instance M_ret : MRet M := λ A a σ, (inr a, σ).
#[global] Instance M_bind : MBind M := λ A B f m σ,
  match m σ with
  | (inl e, σ') => (inl e, σ')
  | (inr a, σ') => f a σ'
  end.

Definition raise {A} (e : exn) : M A := λ σ, (inl e, σ).

(** [try: body / except: handler], the bare [except] that catches
    every exception. *)
Definition try_except {A} (body handler : M A) : M A := λ σ,
  match body σ with
  | (inl _, σ') => handler σ'
  | (inr a, σ') => (inr a, σ')
  end.

(** [cap.read()] on success returns a fresh array. *)
Definition new_array (img : image) : M nat := λ σ,
  (inr (length (heap σ)), State (heap σ ++ [img]) (files σ) (dbfile σ)).

Definition array_at (l : nat) : M image := λ σ,
  match heap σ !! l with
  | Some img => (inr img, σ)
  | None => (inl (OtherError "no such array"), σ)
  end.

Definition DeepFace_analyze (l : nat) : M (list (gmap string pyval)) :=
  img ← array_at l;
  match analyze img with
  | Raises e => raise e
  | Returns faces => mret faces
  end.

(** [result[i]] on a list. *)
Definition list_getitem (result : list (gmap string pyval)) (i : nat)
    : M (gmap string pyval) :=
  match result !! i with
  | Some d => mret d
  | None => raise IndexError
  end.

(** [d[key]] on a dict. *)
Definition dict_getitem (d : gmap string pyval) (key : string) : M pyval :=
  match d !! key with
  | Some v => mret v
  | None => raise (KeyError key)
  end.

(** [cv2.putText(frame, text, ...)] draws on the array it is given. *)
Definition cv2_putText (l : nat) (text : string) : M unit := λ σ,
  (inr (), State (alter (λ img, putText img text) l (heap σ)) (files σ) (dbfile σ)).

(** [cv2.imwrite(path, frame)] replaces whatever the path held. *)
Definition write_file (path : string) (img : image) : M unit := λ σ,
  (inr (), State (heap σ) (<[path := img]> (files σ)) (dbfile σ)).

Definition cv2_imwrite (path : string) (l : nat) : M unit :=
  img ← array_at l;
  write_file path img.

Definition cv2_imencode (l : nat) : M (list Byte.byte) :=
  img ← array_at l;
  mret (imencode img).

Definition db_save_user_result (name usage_mode image_path emotion : pyval)
    (now : Z) : M unit := λ σ,
  let '(r, db') := save_user_result name usage_mode image_path emotion now (dbfile σ) in
  (r, State (heap σ) (files σ) db').

(** The [else] branch of the loop of [generate_frames]: one iteration
    after a successful [cap.read()], up to its [yield], where
    [os.makedirs("captured", exist_ok=True)] has nothing to complain
    about and no other connection holds the write lock of the database;
    [loop_body_env] below carries the step of [os.makedirs] and the lock,
    and agrees with this one where both are harmless. *)
Definition loop_body (t : tick) : M (list Byte.byte) :=
  frame ← new_array (frame t);
  emotion ← try_except
              (result ← DeepFace_analyze frame;
               face ← list_getitem result 0;
               dict_getitem face "dominant_emotion")
              (mret (PyStr "No face detected"));
  cv2_putText frame ("Mood: " +:+ py_str emotion);;
  let image_filename := image_filename (wall t) in
  cv2_imwrite image_filename frame;;
  db_save_user_result (PyStr "Anonymous") (PyStr "online")
                      (PyStr image_filename) emotion (utc t);;
  buffer ← cv2_imencode frame;
  mret (chunk buffer).

(** [generate_frames()] driven until it ends, on a camera that delivers
    the frames [cam] and then reports [success = False].  A consumer that
    stops pulling after k chunks leaves the generator suspended at its
    [yield], in the state of the run over the first k frames. *)
Fixpoint generate_frames (cam : list tick) (σ : state)
    : list (list Byte.byte) * ending * state :=
  match cam with
  | [] => ([], StopIteration, σ)
  | t :: cam' =>
      match loop_body t σ with
      | (inl e, σ') => ([], Propagated e, σ')
      | (inr payload, σ') =>
          let '(payloads, e, σ'') := generate_frames cam' σ' in
          (payload :: payloads, e, σ'')
      end
  end.

(** The result of the [try] body as a function of the frame. *)
Definition try_body (img : image) : exn + pyval :=
  match analyze img with
  | Raises e => inl e
  | Returns faces =>
      match faces !! 0%nat with
      | None => inl IndexError
      | Some d =>
          match d !! "dominant_emotion" with
          | None => inl (KeyError "dominant_emotion")
          | Some v => inr v
          end
      end
  end.

(** The value of [emotion] after the [try]/[except]. *)
Definition emotion_of (img : image) : pyval :=
  match try_body img with
  | inl _ => PyStr "No face detected"
  | inr v => v
  end.

(** The frame after [cv2.putText]. *)
Definition annotated (t : tick) : image :=
  putText (frame t) ("Mood: " +:+ py_str (emotion_of (frame t))).

(** The Detection Record of a frame, under the rowid the store gives it. *)
Definition record_of (t : tick) (rowid : Z) : row :=
  Row rowid "Anonymous" (Some "online") (Some (image_filename (wall t)))
      (stored_text (emotion_of (frame t))) (utc t).

End Pipeline.

Arguments chunk : simpl never.

(** ** A small concrete world

    Pictures are strings; the renderer appends what it draws in brackets;
    the classifier finds two faces, one face, or raises. *)

Module Demo.

Definition stamp (img text : string) : string :=
  img +:+ "[" +:+ text +:+ "]".

Definition classifier (img : string) : analysis :=
  if bool_decide (img = "two faces") then
    Returns [ {[ "dominant_emotion" := PyStr "happy" ]};
              {[ "dominant_emotion" := PyStr "sad" ]} ]
  else if bool_decide (img = "one face") then
    Returns [ {[ "dominant_emotion" := PyStr "happy" ]} ]
  else Raises (OtherError "ValueError: Face could not be detected").

(** A second classifier that reports the first face only. *)
Definition classifier1 (img : string) : analysis :=
  if bool_decide (img = "two faces") then
    Returns [ {[ "dominant_emotion" := PyStr "happy" ]} ]
  else classifier img.

Definition jpeg (img : string) : list Byte.byte := list_byte_of_string img.

(** Two clock readings within the second 2024-03-07 12:00:00, and one in
    the next second. *)
Definition noon : datetime := DateTime 2024 3 7 12 0 0 250.
Definition noon_later : datetime := DateTime 2024 3 7 12 0 0 900.
Definition past_noon : datetime := DateTime 2024 3 7 12 0 1 100.

(** The state after [init_db()] on a new database file. *)
Definition started : state (image:=string) := State [] ∅ (init_db None).

Definition generate := generate_frames classifier stamp jpeg.

Definition iteration := loop_body classifier stamp jpeg.

(** A camera that delivers three frames, the first two within one
    second, and is then exhausted. *)
Definition camera : list (tick (image:=string)) :=
  [Tick "two faces" noon 1709812800;
   Tick "dark" noon_later 1709812800;
   Tick "one face" past_noon 1709812801].

Definition outcome := generate camera started.

(** A second run of the generator, on the state the first one left. *)
Definition second_outcome := generate camera outcome.2.

(** Two inserts within one UTC second, as the pipeline makes them. *)
Definition two_in_one_second : database :=
  let db1 := (save_user_result (PyStr "Anonymous") (PyStr "online")
                (PyStr "captured/a.jpg") (PyStr "happy") 1709812800
                (init_db None)).2 in
  (save_user_result (PyStr "Anonymous") (PyStr "online")
     (PyStr "captured/b.jpg") (PyStr "sad") 1709812800 db1).2.

End Demo.

(** ** Well-formed tables and clock readings *)

(** What SQLite maintains for a rowid table with AUTOINCREMENT: the rows
    lie in increasing rowid order, every rowid is positive and at most
    the counter of [sqlite_sequence]. *)
Definition table_wf (tbl : table) : Prop :=
  StronglySorted Z.lt (id <$> rows tbl) ∧
  Forall (λ r, 1 ≤ id r ≤ seq tbl) (rows tbl) ∧
  0 ≤ seq tbl ≤ INT64_MAX.

Definition db_wf (db : database) : Prop :=
  match db with
  | None => True
  | Some tbl => table_wf tbl
  end.

(** The field ranges of a Python [datetime]. *)
Definition datetime_valid (d : datetime) : Prop :=
  1 ≤ Z.of_nat (year d) ≤ 9999 ∧ 1 ≤ Z.of_nat (month d) ≤ 12 ∧
  1 ≤ Z.of_nat (day d) ≤ 31 ∧ Z.of_nat (hour d) ≤ 23 ∧
  Z.of_nat (minute d) ≤ 59 ∧ Z.of_nat (second d) ≤ 59 ∧
  Z.of_nat (microsecond d) ≤ 999999.

(** ** [app.py]: the page of the [/users] route *)

Definition nl : string := String (ascii_of_nat 10) EmptyString.

(** The text [html] starts from: the triple-quoted literal of [users],
    line by line. *)
Definition html_head : string :=
  nl +:+
  "    <html>" +:+ nl +:+
  "    <head>" +:+ nl +:+
  "        <title>Emotion App Users</title>" +:+ nl +:+
  "        <style>" +:+ nl +:+
  "            body { font-family: Arial; background-color: #111; color: #fff; text-align:center; }" +:+ nl +:+
  "            table { margin: auto; border-collapse: collapse; width: 80%; background: #222; }" +:+ nl +:+
  "            th, td { border: 1px solid #444; padding: 10px; }" +:+ nl +:+
  "            th { background-color: #00ff99; color: #111; }" +:+ nl +:+
  "            tr:nth-child(even) { background-color: #333; }" +:+ nl +:+
  "            a { color: #00ff99; text-decoration: none; }" +:+ nl +:+
  "        </style>" +:+ nl +:+
  "    </head>" +:+ nl +:+
  "    <body>" +:+ nl +:+
  "        <h2>📋 Users Who Used the Emotion App</h2>" +:+ nl +:+
  "        <table>" +:+ nl +:+
  "            <tr>" +:+ nl +:+
  "                <th>ID</th><th>Name</th><th>Mode</th><th>Image</th><th>Emotion</th><th>Time</th>" +:+ nl +:+
  "            </tr>" +:+ nl +:+
  "    ".

Definition html_tail : string := "</table></body></html>".

(** [f'{v}'] for a fetched TEXT column: NULL arrives as [None]. *)
Definition format_column (v : option string) : string :=
  match v with
  | None => py_str PyNone
  | Some s => py_str (PyStr s)
  end.

(** [s] occurs in [page] as it is. *)
Definition occurs (s page : string) : Prop :=
  ∃ before after, page = before +:+ s +:+ after.

Section UsersPage.

(** The text SQLite stored for the UTC second of a row,
    [YYYY-MM-DD HH:MM:SS]. *)
Variable timestamp_text : Z → string.

(** The f-string appended for one fetched row. *)
Definition html_row (r : row) : string :=
  nl +:+
  "            <tr>" +:+ nl +:+
  "                <td>" +:+ pretty (id r) +:+ "</td>" +:+ nl +:+
  "                <td>" +:+ name r +:+ "</td>" +:+ nl +:+
  "                <td>" +:+ format_column (usage_mode r) +:+ "</td>" +:+ nl +:+
  "                <td><a href='/" +:+ format_column (image_path r) +:+
    "' target='_blank'>View</a></td>" +:+ nl +:+
  "                <td>" +:+ format_column (detected_emotion r) +:+ "</td>" +:+ nl +:+
  "                <td>" +:+ timestamp_text (timestamp r) +:+ "</td>" +:+ nl +:+
  "            </tr>" +:+ nl +:+
  "        ".

(** [users()]: fetch, then [html += ...] once per row, then the closing
    tags.  An exception of the query leaves the function. *)
Definition users (db : database) : exn + string :=
  match users_rows db with
  | inl e => inl e
  | inr fetched =>
      inr (foldl (λ html r, html +:+ html_row r) html_head fetched +:+ html_tail)
  end.

End UsersPage.

(** ** The environment: the [captured] path and leaked connections

    Two things outside the program decide whether an iteration gets as
    far as its [yield]: what the path [captured] is when
    [os.makedirs("captured", exist_ok=True)] runs, and whether a
    connection that an earlier failed call left open still holds the
    write lock of the database.  The definitions above describe the code
    where [captured] can be made a directory and no such connection
    exists; the ones below carry both conditions along.  The working
    directory is taken to be writable and the disk healthy, and the cv2
    calls do not raise on the arrays [cap.read()] delivers. *)

(** What the path [captured] is. *)
Inductive entry :=
| Absent
| Directory
| RegularFile.

(** [os.makedirs("captured", exist_ok=True)]: an existing directory is
    accepted, a missing one is made, anything else under that name
    raises. *)
Definition makedirs_exist_ok (c : entry) : exn + entry :=
  match c with
  | Absent => inr Directory
  | Directory => inr Directory
  | RegularFile =>
      inl (OtherError "FileExistsError: [Errno 17] File exists: 'captured'")
  end.

(** [save_user_result] with the fate of its connection.  [locked] says
    that a leaked connection holds the write lock.  [execute] prepares
    the statement (the table must exist), opens a deferred transaction,
    binds the parameters and steps: the step needs the write lock and
    gives up with "database is locked" while another connection holds
    it.  A constraint violation aborts the statement but leaves the
    transaction open, and because the exception skips [conn.close()],
    the connection goes on holding the write lock until it is collected;
    SQLITE_FULL rolls the transaction back and leaves no lock.  The
    result is the outcome, the database, and whether the write lock is
    held afterwards. *)
Definition save_user_result_env (name usage_mode image_path emotion : pyval)
    (now : Z) (locked : bool) (db : database) : (exn + unit) * database * bool :=
  match db with
  | None => (inl (OperationalError "no such table: users"), db, locked)
  | Some tbl =>
      match bind name with
      | inl e => (inl e, db, locked)
      | inr vname =>
      match bind usage_mode with
      | inl e => (inl e, db, locked)
      | inr vmode =>
      match bind image_path with
      | inl e => (inl e, db, locked)
      | inr vpath =>
      match bind emotion with
      | inl e => (inl e, db, locked)
      | inr vemotion =>
          if locked then (inl (OperationalError "database is locked"), db, locked)
          else
            match insert_users vname vmode vpath vemotion now tbl with
            | inl (IntegrityError c) => (inl (IntegrityError c), db, true)
            | inl e => (inl e, db, false)
            | inr tbl' => (inr (), Some tbl', false)
            end
      end end end end
  end.

Section Environment.

Context {image : Type}.
Variable analyze : image → analysis.
Variable putText : image → string → image.
Variable imencode : image → list Byte.byte.

(** The generator's world: the state of the program, the path
    [captured], and the write lock. *)
Record world := World {
  running : state (image:=image);
  captured : entry;
  write_locked : bool
}.

Definition MW (A : Type) : Type := world → (exn + A) * world.

#[global] Instance MW_ret : MRet MW := λ A a w, (inr a, w).
#[global] Instance MW_bind : MBind MW := λ A B f m w,
  match m w with
  | (inl e, w') => (inl e, w')
  | (inr a, w') => f a w'
  end.

(** A step that only touches the state of the program. *)
Definition lift {A} (m : M A) : MW A := λ w,
  let '(r, σ') := m (running w) in
  (r, World σ' (captured w) (write_locked w)).

Definition os_makedirs : MW unit := λ w,
  match makedirs_exist_ok (captured w) with
  | inl e => (inl e, w)
  | inr c => (inr (), World (running w) c (write_locked w))
  end.

Definition db_save_user_result_env (name usage_mode image_path emotion : pyval)
    (now : Z) : MW unit := λ w,
  let '(r, db', locked') :=
    save_user_result_env name usage_mode image_path emotion now
                         (write_locked w) (dbfile (running w)) in
  (r, World (State (heap (running w)) (files (running w)) db')
            (captured w) locked').

(** The [else] branch of the loop of [generate_frames], statement by
    statement, in its environment. *)
Definition loop_body_env (t : tick) : MW (list Byte.byte) :=
  frame ← lift (new_array (frame t));
  emotion ← lift (try_except
                    (result ← DeepFace_analyze analyze frame;
                     face ← list_getitem result 0;
                     dict_getitem face "dominant_emotion")
                    (mret (PyStr "No face detected")));
  lift (cv2_putText putText frame ("Mood: " +:+ py_str emotion));;
  os_makedirs;;
  let image_filename := image_filename (wall t) in
  lift (cv2_imwrite image_filename frame);;
  db_save_user_result_env (PyStr "Anonymous") (PyStr "online")
                          (PyStr image_filename) emotion (utc t);;
  buffer ← lift (cv2_imencode imencode frame);
  mret (chunk buffer).

(** [generate_frames()] driven until it ends, in its environment. *)
Fixpoint generate_frames_env (cam : list tick) (w : world)
    : list (list Byte.byte) * ending * world :=
  match cam with
  | [] => ([], StopIteration, w)
  | t :: cam' =>
      match loop_body_env t w with
      | (inl e, w') => ([], Propagated e, w')
      | (inr payload, w') =>
          let '(payloads, e, w'') := generate_frames_env cam' w' in
          (payload :: payloads, e, w'')
      end
  end.

(** The classifier that answers every frame with the sentinel label. *)
Definition sentinel_classifier (img : image) : analysis :=
  Returns [ {[ "dominant_emotion" := PyStr "No face detected" ]} ].

End Environment.

(** ** Further concrete data *)

Module Scenario.

(** The state of a process in which [init_db()] never ran. *)
Definition unstarted : state (image:=string) := State [] ∅ None.

(** A row whose name is markup. *)
Definition markup_row : row :=
  Row 1 "<script>alert(1)</script>" None (Some "captured/a.jpg")
      (Some "happy") 1709812800.

Definition markup_table : table := Table [markup_row] 1.

(** A stand-in for the text of a timestamp. *)
Definition seconds_text (z : Z) : string := pretty z.

(** The camera of [Demo], frame by frame. *)
Definition first_frame : tick (image:=string) :=
  Tick "two faces" Demo.noon 1709812800.
Definition second_frame : tick (image:=string) :=
  Tick "dark" Demo.noon_later 1709812800.
Definition third_frame : tick (image:=string) :=
  Tick "one face" Demo.past_noon 1709812801.

(** A run on the unstarted state. *)
Definition failed_outcome := Demo.generate Demo.camera unstarted.

(** The started program where [captured] does not exist yet, and where a
    regular file of that name is in the way. *)
Definition ready : world (image:=string) := World Demo.started Absent false.
Definition blocked : world (image:=string) := World Demo.started RegularFile false.

Definition generate_env := generate_frames_env Demo.classifier Demo.stamp Demo.jpeg.
Definition iteration_env := loop_body_env Demo.classifier Demo.stamp Demo.jpeg.

(** A run from the ready world, and a second run from the world it left. *)
Definition outcome_env := generate_env Demo.camera ready.
Definition second_outcome_env := generate_env Demo.camera outcome_env.2.

(** The frame on which the classifier of [Demo] raises. *)
Definition dark_frame : tick (image:=string) := Tick "dark" Demo.noon 1709812800.

End Scenario.

(** * Properties *)

(** ** The store *)

Section StoreFacts.

Implicit Types (r : row) (rs : list row) (tbl : table) (db : database).

Lemma max_rowid_elem_of rs r : r ∈ rs → id r ≤ max_rowid rs.
Proof.
  unfold max_rowid. induction 1 as [r rs|r r' rs _ IH]; cbn; lia.
Qed.

Lemma new_rowid_above tbl rowid :
  new_rowid tbl = inr rowid →
  rowid = largest_rowid_ever tbl + 1 ∧ rowid ≤ INT64_MAX.
Proof.
  unfold new_rowid. case_bool_decide; [|done].
  intros [= <-]. lia.
Qed.

Lemma new_rowid_fresh tbl rowid r :
  new_rowid tbl = inr rowid → r ∈ rows tbl → id r < rowid.
Proof.
  intros [-> _]%new_rowid_above Hr%max_rowid_elem_of.
  unfold largest_rowid_ever. lia.
Qed.

Lemma bind_stored_text v s : bind v = inr s → text_affinity s = stored_text v.
Proof. unfold stored_text. by intros ->. Qed.

(** A failed call changes nothing. *)
Lemma save_user_result_failure n m p e now db err db' :
  save_user_result n m p e now db = (inl err, db') → db' = db.
Proof.
  unfold save_user_result. intros H.
  repeat (case_match; simplify_eq; try done).
Qed.

(** A successful call appends exactly one row, under a fresh rowid. *)
Lemma save_user_result_success n m p e now db db' :
  save_user_result n m p e now db = (inr (), db') →
  ∃ tbl rowid s,
    db = Some tbl ∧ new_rowid tbl = inr rowid ∧ stored_text n = Some s ∧
    bindable m = true ∧
    check_passes (usage_mode_in_list (stored_text m)) = true ∧
    db' = Some (Table (rows tbl ++
                         [Row rowid s (stored_text m) (stored_text p)
                              (stored_text e) now])
                      rowid).
Proof.
  unfold save_user_result, insert_users. intros H.
  repeat (case_match; simplify_eq; try done).
  unfold stored_text, bindable.
  repeat match goal with Hb : bind _ = inr _ |- _ => rewrite Hb; clear Hb end.
  by eexists _, _, _.
Qed.

Lemma numeral_pretty_N_go (x : N) s : numeral s → numeral (pretty_N_go x s).
Proof.
  revert s. induction (N.lt_wf_0 x) as [x _ IH]; intros s Hs.
  destruct (decide (x = 0)%N) as [->|]; [by rewrite pretty_N_go_0|].
  rewrite pretty_N_go_step by lia.
  apply IH; [apply N.div_lt; lia|]. split; [|done]. right. by eexists.
Qed.

Lemma numeral_pretty_Z (z : Z) : numeral (pretty z).
Proof.
  assert (Hpos : ∀ p : positive, numeral (pretty p)).
  { intros p. unfold pretty, pretty_positive, pretty, pretty_N.
    case_decide; [done|]. by apply numeral_pretty_N_go. }
  destruct z as [|p|p]; [by (split; [right; exists 0%N|])|apply Hpos|].
  split; [by left|apply Hpos].
Qed.

Lemma numeral_not_o s : ¬ numeral (String "o" s).
Proof.
  intros [[?|[n Hn]] _]; [done|].
  unfold pretty_N_char in Hn. by repeat case_match.
Qed.

(** A bound value other than NULL, 'online' and 'offline' makes the CHECK
    expression false. *)
Lemma invalid_mode_check mode :
  mode ≠ PyNone → mode ≠ PyStr "online" → mode ≠ PyStr "offline" →
  bindable mode = true →
  check_passes (usage_mode_in_list (stored_text mode)) = false.
Proof.
  unfold bindable, stored_text. intros Hnone Hon Hoff.
  destruct mode as [|s|z|o]; cbn; [done| | |done].
  - intros _. rewrite !bool_decide_eq_false_2; [done|congruence..].
  - case_bool_decide; [|done]. intros _. cbn.
    pose proof (numeral_pretty_Z z) as Hz.
    rewrite !bool_decide_eq_false_2; [done|..];
      intros Heq; rewrite Heq in Hz; by apply numeral_not_o in Hz.
Qed.

(** The call as the pipeline makes it, when the label can be bound. *)
Lemma save_user_result_pipeline path e now tbl rowid :
  new_rowid tbl = inr rowid → bindable e = true →
  save_user_result (PyStr "Anonymous") (PyStr "online") (PyStr path) e now
                   (Some tbl) =
  (inr (), Some (Table (rows tbl ++
                          [Row rowid "Anonymous" (Some "online") (Some path)
                               (stored_text e) now])
                       rowid)).
Proof.
  unfold save_user_result, insert_users, bindable, stored_text.
  intros -> He. cbn. by destruct (bind e).
Qed.

Lemma sorter_insert_perm r rs : sorter_insert r rs ≡ₚ r :: rs.
Proof.
  induction rs as [|x rs IH]; cbn; [done|].
  case_bool_decide; [done|].
  by rewrite IH, Permutation_swap.
Qed.

Lemma order_by_timestamp_desc_cons r rs :
  order_by_timestamp_desc (r :: rs) = sorter_insert r (order_by_timestamp_desc rs).
Proof. reflexivity. Qed.

Lemma order_by_timestamp_desc_perm rs : order_by_timestamp_desc rs ≡ₚ rs.
Proof.
  induction rs as [|r rs IH]; cbn; [done|].
  by rewrite sorter_insert_perm, IH.
Qed.

Lemma sorter_insert_sorted r rs :
  StronglySorted newer_first rs → StronglySorted newer_first (sorter_insert r rs).
Proof.
  induction 1 as [|x rs Hs IH Hx]; cbn.
  - repeat constructor.
  - case_bool_decide as Hle.
    + constructor; [by constructor|].
      constructor; [done|].
      eapply Forall_impl; [exact Hx|]. unfold newer_first. intros; lia.
    + constructor; [done|].
      rewrite sorter_insert_perm. constructor; [|done].
      unfold newer_first. lia.
Qed.

Lemma order_by_timestamp_desc_sorted rs :
  StronglySorted newer_first (order_by_timestamp_desc rs).
Proof.
  induction rs; cbn; [constructor|]. by apply sorter_insert_sorted.
Qed.

(** The sorter is stable: among rows of one timestamp the scan order is
    kept. *)
Lemma sorter_insert_stable (τ : Z) r rs :
  filter (λ x, timestamp x = τ) (sorter_insert r rs) =
  filter (λ x, timestamp x = τ) (r :: rs).
Proof.
  induction rs as [|x rs IH]; cbn; [done|].
  case_bool_decide as Hle; [done|].
  rewrite filter_cons, IH, !filter_cons.
  repeat case_decide; try done; lia.
Qed.

Lemma order_by_timestamp_desc_stable (τ : Z) rs :
  filter (λ x, timestamp x = τ) (order_by_timestamp_desc rs) =
  filter (λ x, timestamp x = τ) rs.
Proof.
  induction rs as [|r rs IH]; [done|].
  by rewrite order_by_timestamp_desc_cons, sorter_insert_stable, !filter_cons, IH.
Qed.

Lemma sorter_insert_oldest r rs :
  Forall (λ x, timestamp r < timestamp x) rs → sorter_insert r rs = rs ++ [r].
Proof.
  induction 1 as [|x rs Hx _ IH]; cbn; [done|].
  case_bool_decide; [lia|]. by rewrite IH.
Qed.

Lemma order_by_timestamp_desc_reverse rs :
  StronglySorted older_than rs → order_by_timestamp_desc rs = reverse rs.
Proof.
  induction 1 as [|r rs _ IH Hr]; [done|].
  rewrite order_by_timestamp_desc_cons, IH, reverse_cons.
  apply sorter_insert_oldest.
  by apply Forall_reverse.
Qed.

End StoreFacts.

(** ** One iteration of the loop *)

Section IterationFacts.

Context {image : Type}.
Variable analyze : image → analysis.
Variable putText : image → string → image.
Variable imencode : image → list Byte.byte.

Implicit Types (t : tick (image:=image)) (σ : state (image:=image)).

#[local] Abbreviation body := (loop_body analyze putText imencode).
#[local] Abbreviation label := (emotion_of analyze).
#[local] Abbreviation drawn := (annotated analyze putText).

Lemma bind_run {A B} (m : M A) (f : A → M B) σ :
  (m ≫= f) σ =
  match m σ with
  | (inl e, σ') => (inl e, σ')
  | (inr a, σ') => f a σ'
  end.
Proof. reflexivity. Qed.

Lemma array_at_run l σ img :
  heap σ !! l = Some img → array_at l σ = (inr img, σ).
Proof. unfold array_at. by intros ->. Qed.

(** The [try]/[except] block never raises and does not touch the state. *)
Lemma try_block_run l σ img :
  heap σ !! l = Some img →
  try_except
    (result ← DeepFace_analyze analyze l;
     face ← list_getitem result 0;
     dict_getitem face "dominant_emotion")
    (mret (PyStr "No face detected")) σ
  = (inr (label img), σ).
Proof.
  intros Hl. unfold try_except, DeepFace_analyze.
  rewrite !bind_run, (array_at_run _ _ _ Hl).
  unfold emotion_of, try_body, list_getitem, dict_getitem.
  unfold mbind, M_bind, mret, M_ret, raise.
  destruct (analyze img) as [e|faces]; [done|].
  destruct (faces !! 0%nat) as [d|]; [|done].
  by destruct (d !! "dominant_emotion").
Qed.

Lemma cv2_imwrite_run path l σ img :
  heap σ !! l = Some img →
  cv2_imwrite path l σ =
  (inr (), State (heap σ) (<[path := img]> (files σ)) (dbfile σ)).
Proof.
  intros Hl. unfold cv2_imwrite. by rewrite bind_run, (array_at_run _ _ _ Hl).
Qed.

Lemma cv2_imencode_run l σ img :
  heap σ !! l = Some img → cv2_imencode imencode l σ = (inr (imencode img), σ).
Proof.
  intros Hl. unfold cv2_imencode. by rewrite bind_run, (array_at_run _ _ _ Hl).
Qed.

(** The iteration in closed form: the camera's array is overwritten by
    its annotated version, that version is written under the clock's
    file name, and the outcome is the outcome of the insert. *)
Lemma loop_body_run t σ :
  body t σ =
  let path := image_filename (wall t) in
  let r := save_user_result (PyStr "Anonymous") (PyStr "online") (PyStr path)
             (label (frame t)) (utc t) (dbfile σ) in
  (match r.1 with
   | inl e => inl e
   | inr _ => inr (chunk (imencode (drawn t)))
   end,
   State (heap σ ++ [drawn t]) (<[path := drawn t]> (files σ)) r.2).
Proof.
  unfold loop_body.
  rewrite bind_run. unfold new_array.
  rewrite bind_run, (try_block_run _ _ (frame t)) by by apply list_lookup_middle.
  rewrite bind_run. unfold cv2_putText. cbn [heap files dbfile].
  replace (length (heap σ)) with (length (heap σ) + 0)%nat at 2 by lia.
  rewrite alter_app_r. cbn [alter list_alter].
  fold (drawn t).
  rewrite bind_run, (cv2_imwrite_run _ _ _ (drawn t))
    by by apply list_lookup_middle.
  cbn [heap files dbfile].
  rewrite bind_run. unfold db_save_user_result. cbn [heap files dbfile].
  destruct (save_user_result _ _ _ _ _ _) as [[e|[]] db']; [done|].
  rewrite bind_run, (cv2_imencode_run _ _ (drawn t))
    by by apply list_lookup_middle.
  done.
Qed.

Lemma loop_body_failure t σ e σ' :
  body t σ = (inl e, σ') → dbfile σ' = dbfile σ.
Proof.
  rewrite loop_body_run. cbn zeta.
  destruct (save_user_result _ _ _ _ _ _) as [[e'|[]] db'] eqn:Hs; [|done].
  apply save_user_result_failure in Hs as ->. by intros [= _ <-].
Qed.

Lemma loop_body_success t σ payload σ' :
  body t σ = (inr payload, σ') →
  payload = chunk (imencode (drawn t)) ∧
  heap σ' = heap σ ++ [drawn t] ∧
  files σ' = <[image_filename (wall t) := drawn t]> (files σ) ∧
  ∃ tbl rowid,
    dbfile σ = Some tbl ∧ new_rowid tbl = inr rowid ∧
    dbfile σ' = Some (Table (rows tbl ++ [record_of analyze t rowid]) rowid).
Proof.
  rewrite loop_body_run. cbn zeta.
  destruct (save_user_result _ _ _ _ _ _) as [[e'|[]] db'] eqn:Hs; [done|].
  intros [= <- <-]. split_and!; [done..|].
  apply save_user_result_success
    in Hs as (tbl & rowid & s & -> & Hid & Hs & _ & _ & ->).
  cbv in Hs. simplify_eq. by eexists _, _.
Qed.

(** With a table that has room and a label that can be bound, the
    iteration yields. *)
Lemma loop_body_yields t σ tbl rowid :
  dbfile σ = Some tbl → new_rowid tbl = inr rowid →
  bindable (label (frame t)) = true →
  body t σ =
  (inr (chunk (imencode (drawn t))),
   State (heap σ ++ [drawn t])
         (<[image_filename (wall t) := drawn t]> (files σ))
         (Some (Table (rows tbl ++ [record_of analyze t rowid]) rowid))).
Proof.
  intros Hdb Hid Hb. rewrite loop_body_run, Hdb. cbn zeta.
  by rewrite (save_user_result_pipeline _ _ _ _ _ Hid Hb).
Qed.

End IterationFacts.

(** ** Runs of the generator *)

Section RunFacts.

Context {image : Type}.
Variable analyze : image → analysis.
Variable putText : image → string → image.
Variable imencode : image → list Byte.byte.

Implicit Types (t : tick (image:=image)) (σ : state (image:=image)).
Implicit Types (cam : list (tick (image:=image))).

#[local] Abbreviation body := (loop_body analyze putText imencode).
#[local] Abbreviation run := (generate_frames analyze putText imencode).
#[local] Abbreviation label := (emotion_of analyze).
#[local] Abbreviation drawn := (annotated analyze putText).

Lemma generate_frames_cons t cam σ :
  run (t :: cam) σ =
  match body t σ with
  | (inl e, σ') => ([], Propagated e, σ')
  | (inr payload, σ') =>
      let '(payloads, e, σ'') := run cam σ' in (payload :: payloads, e, σ'')
  end.
Proof. reflexivity. Qed.

(** A run over [cam1 ++ cam2] that reaches [break] is such a run over
    [cam1] followed by such a run over [cam2]. *)
Lemma generate_frames_app cam1 cam2 σ payloads σ' :
  run (cam1 ++ cam2) σ = (payloads, StopIteration, σ') →
  ∃ payloads1 σ1 payloads2,
    run cam1 σ = (payloads1, StopIteration, σ1) ∧
    run cam2 σ1 = (payloads2, StopIteration, σ') ∧
    payloads = payloads1 ++ payloads2.
Proof.
  revert σ payloads. induction cam1 as [|t cam1 IH]; intros σ payloads.
  - intros Hrun. by exists [], σ, payloads.
  - rewrite <-app_comm_cons, !generate_frames_cons.
    destruct (body t σ) as [[e|payload] σ0]; [done|].
    destruct (run (cam1 ++ cam2) σ0) as [[ps e] σ2] eqn:Hrun.
    intros [= <- -> <-].
    apply IH in Hrun as (ps1 & σ1 & ps2 & Hrun1 & Hrun2 & ->).
    exists (payload :: ps1), σ1, ps2. by rewrite Hrun1.
Qed.

(** The first iteration of a run that reaches [break] has yielded. *)
Lemma generate_frames_head t cam σ payloads σ' :
  run (t :: cam) σ = (payloads, StopIteration, σ') →
  ∃ payload σ1 payloads',
    body t σ = (inr payload, σ1) ∧
    run cam σ1 = (payloads', StopIteration, σ') ∧
    payloads = payload :: payloads'.
Proof.
  rewrite generate_frames_cons.
  destruct (body t σ) as [[e|payload] σ1]; [done|].
  destruct (run cam σ1) as [[ps e] σ2] eqn:Hrun.
  intros [= <- -> <-]. by exists payload, σ1, ps.
Qed.

(** A run that reaches [break] has yielded once per frame. *)
Lemma finite_run_length cam σ payloads σ' :
  run cam σ = (payloads, StopIteration, σ') → length payloads = length cam.
Proof.
  revert σ payloads. induction cam as [|t cam IH]; intros σ payloads.
  { by intros [= <- _]. }
  rewrite generate_frames_cons.
  destruct (body t σ) as [[e|payload] σ1]; [done|].
  destruct (run cam σ1) as [[ps e] σ2] eqn:Hrun.
  intros [= <- -> <-]. cbn. by rewrite (IH _ _ Hrun).
Qed.

Lemma strictly_increasing_NoDup (l : list Z) : StronglySorted Z.lt l → NoDup l.
Proof.
  induction 1 as [|x l _ IH Hx]; constructor; [|done].
  intros Hin. rewrite Forall_forall in Hx. specialize (Hx _ Hin). lia.
Qed.

Lemma max_rowid_snoc rs r :
  max_rowid (rs ++ [r]) = Z.max (max_rowid rs) (Z.max (id r) 0).
Proof.
  unfold max_rowid. induction rs as [|x rs IH]; cbn; [lia|].
  rewrite IH. lia.
Qed.

Lemma max_rowid_nonneg rs : 0 ≤ max_rowid rs.
Proof. unfold max_rowid. induction rs; cbn; lia. Qed.

Lemma largest_rowid_ever_insert tbl r rowid :
  new_rowid tbl = inr rowid → id r = rowid →
  largest_rowid_ever (Table (rows tbl ++ [r]) rowid) = largest_rowid_ever tbl + 1.
Proof.
  intros [-> _]%new_rowid_above Hr. unfold largest_rowid_ever in *. cbn.
  rewrite max_rowid_snoc, Hr. pose proof (max_rowid_nonneg (rows tbl)). lia.
Qed.

End RunFacts.

(** ** The persistence log: [init_db], [save_user_result], [/users] *)

(** C6: [init_db] is idempotent.  A second call changes nothing, a call on
    an existing table returns the very same table, and the rows (hence
    their number) are those from before the call: nothing is dropped or
    migrated. *)
Theorem init_db_idempotent (db : database) :
  init_db (init_db db) = init_db db ∧
  db_rows (init_db db) = db_rows db ∧
  length (db_rows (init_db (init_db db))) = length (db_rows db) ∧
  ∀ tbl, init_db (Some tbl) = Some tbl.
Proof. by destruct db. Qed.

(** C3 (amended): for every mode value that is neither [None] nor one of
    'online' and 'offline', [save_user_result] fails and leaves the
    database as it was.  Where the same call with mode 'online' is
    accepted and the mode value can be bound, the failure is the
    violation of the CHECK constraint on [usage_mode]. *)
Theorem save_user_result_rejects_invalid_mode
    (mode name path emotion : pyval) (now : Z) (db : database) :
  mode ≠ PyNone → mode ≠ PyStr "online" → mode ≠ PyStr "offline" →
  (∃ e, save_user_result name mode path emotion now db = (inl e, db)) ∧
  (∀ db', save_user_result name (PyStr "online") path emotion now db
            = (inr (), db') →
          bindable mode = true →
          save_user_result name mode path emotion now db
            = (inl (IntegrityError (CheckFailed "usage_mode")), db)).
Proof.
  intros Hnone Hon Hoff. split.
  - destruct (save_user_result name mode path emotion now db)
      as [[e|[]] db'] eqn:Hs.
    + apply save_user_result_failure in Hs as ->. by exists e.
    + apply save_user_result_success
        in Hs as (_ & _ & _ & _ & _ & _ & Hb & Hc & _).
      by rewrite invalid_mode_check in Hc.
  - intros db' Hs Hb.
    pose proof (invalid_mode_check mode Hnone Hon Hoff Hb) as Hc.
    revert Hs Hb Hc. unfold save_user_result, insert_users, bindable, stored_text.
    destruct db as [tbl|]; [|done].
    destruct (bind name) as [|vn]; [done|].
    destruct (bind mode) as [|vm]; [done|].
    destruct (bind path) as [|vp]; [done|].
    destruct (bind emotion) as [|ve]; [done|]. cbn.
    destruct (new_rowid tbl) as [|rowid]; [done|].
    destruct (text_affinity vn); [|done].
    by intros _ _ ->.
Qed.

(** C9: with mode [None] the call is accepted.  On a table that can take
    another rowid, with a name that is stored as text and bindable path
    and emotion, [save_user_result] returns normally and has appended one
    row whose [usage_mode] is NULL. *)
Theorem save_user_result_null_mode
    (name path emotion : pyval) (n : string) (now : Z) (tbl : table) (rowid : Z) :
  new_rowid tbl = inr rowid →
  stored_text name = Some n →
  bindable path = true → bindable emotion = true →
  save_user_result name PyNone path emotion now (Some tbl) =
  (inr (),
   Some (Table (rows tbl ++
                  [Row rowid n None (stored_text path) (stored_text emotion) now])
               rowid)).
Proof.
  unfold save_user_result, insert_users, bindable, stored_text.
  intros -> Hn Hp He.
  destruct (bind name) as [|vn]; [done|].
  destruct (bind path) as [|vp]; [done|].
  destruct (bind emotion) as [|ve]; [done|]. cbn.
  by rewrite Hn.
Qed.

(** C4 (amended): the query of [/users] returns every row exactly once,
    ordered by timestamp, newest first; rows inserted within one second
    share a timestamp and are listed in insertion order.  N rows give a
    listing of N rows, no rows give the empty listing, and when the
    timestamps grow strictly with insertion the listing is the reverse of
    the insertion order, the most recently inserted row first. *)
Theorem users_rows_listing (tbl : table) :
  ∃ listing,
    users_rows (Some tbl) = inr listing ∧
    listing ≡ₚ rows tbl ∧
    length listing = length (rows tbl) ∧
    StronglySorted newer_first listing ∧
    (∀ τ : Z, filter (λ r, timestamp r = τ) listing
              = filter (λ r, timestamp r = τ) (rows tbl)) ∧
    (rows tbl = [] → listing = []) ∧
    (StronglySorted older_than (rows tbl) →
       listing = reverse (rows tbl) ∧ head listing = last (rows tbl)).
Proof.
  exists (order_by_timestamp_desc (rows tbl)). split_and!.
  - done.
  - apply order_by_timestamp_desc_perm.
  - by rewrite order_by_timestamp_desc_perm.
  - apply order_by_timestamp_desc_sorted.
  - intros τ. apply order_by_timestamp_desc_stable.
  - by intros ->.
  - intros ->%order_by_timestamp_desc_reverse. by rewrite head_reverse.
Qed.

(** ** The frame pipeline: [generate_frames] *)

Section PipelineClaims.

Context {image : Type}.
Variable analyze : image → analysis.
Variable putText : image → string → image.
Variable imencode : image → list Byte.byte.

Implicit Types (t : tick (image:=image)) (σ : state (image:=image)).
Implicit Types (cam : list (tick (image:=image))).

#[local] Abbreviation body := (loop_body analyze putText imencode).
#[local] Abbreviation run := (generate_frames analyze putText imencode).
#[local] Abbreviation label := (emotion_of analyze).
#[local] Abbreviation drawn := (annotated analyze putText).

Lemma strftime_same_second (d1 d2 : datetime) :
  same_second d1 d2 → strftime d1 = strftime d2.
Proof.
  intros (Hy & Hm & Hd & HH & HM & HS). unfold strftime.
  by rewrite Hy, Hm, Hd, HH, HM, HS.
Qed.

(** C8: two frames processed within one wall-clock second get the same
    artifact path.  The iteration of the earlier frame stores its
    annotated picture under that path; once the later frame has been
    processed the path holds the later frame's picture instead, and the
    run has gone on undisturbed, yielding every frame. *)
Theorem same_second_overwrites cam t1 t2 σ payloads σ' :
  t1 ∈ cam → same_second (wall t1) (wall t2) →
  run (cam ++ [t2]) σ = (payloads, StopIteration, σ') →
  image_filename (wall t1) = image_filename (wall t2) ∧
  (∃ before after σ1 payload1 σ1',
     cam = before ++ t1 :: after ∧
     run before σ = (take (length before) payloads, StopIteration, σ1) ∧
     body t1 σ1 = (inr payload1, σ1') ∧
     files σ1' !! image_filename (wall t1) = Some (drawn t1)) ∧
  files σ' !! image_filename (wall t1) = Some (drawn t2) ∧
  length payloads = S (length cam).
Proof.
  intros (before & after & ->)%list_elem_of_split Hsame Hrun.
  assert (Hname : image_filename (wall t1) = image_filename (wall t2)).
  { unfold image_filename. by rewrite (strftime_same_second _ _ Hsame). }
  split_and!; [done| | |].
  - rewrite <-app_assoc in Hrun.
    apply generate_frames_app in Hrun as (ps1 & σ1 & ps2 & Hrun1 & Hrun2 & ->).
    rewrite <-app_comm_cons in Hrun2.
    apply generate_frames_head in Hrun2 as (p1 & σ1' & ps' & Hbody & _ & _).
    exists before, after, σ1, p1, σ1'. split_and!; [done| |done|].
    + rewrite <-(finite_run_length _ _ _ _ _ _ _ Hrun1).
      by rewrite take_app_length.
    + apply loop_body_success in Hbody as (_ & _ & -> & _).
      apply lookup_insert_eq.
  - apply generate_frames_app in Hrun as (ps1 & σ1 & ps2 & _ & Hrun2 & _).
    apply generate_frames_head in Hrun2 as (p2 & σ2 & ps' & Hbody & Hnil & _).
    injection Hnil as _ <-.
    apply loop_body_success in Hbody as (_ & _ & -> & _).
    rewrite Hname. apply lookup_insert_eq.
  - rewrite (finite_run_length _ _ _ _ _ _ _ Hrun), length_app. cbn. lia.
Qed.

End PipelineClaims.

(** C10: only the first entry of the classifier's result is read.  Two
    classifiers whose results on a frame agree on the first entry give
    the same iteration, whatever further faces either reports; and when
    that entry has a dominant emotion [v], the text drawn is "Mood: v" and
    the appended record carries [v] as its detected emotion. *)
Theorem only_first_face_counts {image : Type}
    (analyze1 analyze2 : image → analysis)
    (putText : image → string → image) (imencode : image → list Byte.byte)
    (t : tick) (σ : state) (d : gmap string pyval)
    (rest1 rest2 : list (gmap string pyval)) :
  analyze1 (frame t) = Returns (d :: rest1) →
  analyze2 (frame t) = Returns (d :: rest2) →
  loop_body analyze1 putText imencode t σ
    = loop_body analyze2 putText imencode t σ ∧
  ∀ v, d !! "dominant_emotion" = Some v →
    heap (loop_body analyze1 putText imencode t σ).2
      = heap σ ++ [putText (frame t) ("Mood: " +:+ py_str v)] ∧
    ∀ payload σ',
      loop_body analyze1 putText imencode t σ = (inr payload, σ') →
      ∃ rowid,
        db_rows (dbfile σ') =
          db_rows (dbfile σ) ++
            [Row rowid "Anonymous" (Some "online")
                 (Some (image_filename (wall t))) (stored_text v) (utc t)].
Proof.
  intros H1 H2.
  assert (Hsame : emotion_of analyze1 (frame t) = emotion_of analyze2 (frame t))
    by (unfold emotion_of, try_body; by rewrite H1, H2).
  split.
  - rewrite !loop_body_run. unfold annotated. by rewrite Hsame.
  - intros v Hv.
    assert (Hl : emotion_of analyze1 (frame t) = v)
      by (unfold emotion_of, try_body; rewrite H1; cbn; by rewrite Hv).
    split.
    + rewrite loop_body_run. cbn. unfold annotated. by rewrite Hl.
    + intros payload σ' Hbody.
      apply loop_body_success
        in Hbody as (_ & _ & _ & tbl & rowid & -> & _ & ->).
      exists rowid. cbn. unfold record_of. by rewrite Hl.
Qed.

(** ** The development at work on the concrete world *)

(** C1, counterexample: the classifier raises on the frame, the iteration
    appends a record, and its detected emotion is not the lower-case
    text "no face detected". *)
Lemma lowercase_sentinel_is_not_stored :
  try_body Demo.classifier "dark"
    = inl (OtherError "ValueError: Face could not be detected") ∧
  ¬ ∃ r,
      db_rows (dbfile (Demo.iteration (Tick "dark" Demo.noon 1709812800)
                                      Demo.started).2)
        = db_rows (dbfile Demo.started) ++ [r] ∧
      detected_emotion r = Some "no face detected".
Proof.
  split; [reflexivity|].
  intros (r & Hr & He). vm_compute in Hr.
  injection Hr as <-. cbn in He. discriminate.
Qed.

(** C3, counterexample: not every mode outside {online, offline} is
    rejected; [None] is such a value and the call with it is accepted. *)
Lemma none_mode_is_not_rejected :
  ¬ ∀ (mode name path emotion : pyval) (now : Z) (db : database),
      mode ≠ PyStr "online" → mode ≠ PyStr "offline" →
      ∃ e, save_user_result name mode path emotion now db = (inl e, db).
Proof.
  intros Hclaim.
  destruct (Hclaim PyNone (PyStr "Anonymous") (PyStr "captured/a.jpg")
              (PyStr "happy") 1709812800 (init_db None)) as [e He]; [done..|].
  vm_compute in He. discriminate.
Qed.

Lemma save_user_result_rejects_invalid_mode_witness :
  (∃ e, save_user_result (PyStr "Anonymous") (PyStr "hybrid")
          (PyStr "captured/a.jpg") (PyStr "happy") 1709812800 (init_db None)
        = (inl e, init_db None)) ∧
  (∀ db', save_user_result (PyStr "Anonymous") (PyStr "online")
            (PyStr "captured/a.jpg") (PyStr "happy") 1709812800 (init_db None)
          = (inr (), db') →
          bindable (PyStr "hybrid") = true →
          save_user_result (PyStr "Anonymous") (PyStr "hybrid")
            (PyStr "captured/a.jpg") (PyStr "happy") 1709812800 (init_db None)
          = (inl (IntegrityError (CheckFailed "usage_mode")), init_db None)).
Proof.
  apply (save_user_result_rejects_invalid_mode (PyStr "hybrid")
           (PyStr "Anonymous") (PyStr "captured/a.jpg") (PyStr "happy")
           1709812800 (init_db None)); discriminate.
Defined.

Lemma save_user_result_null_mode_witness :
  save_user_result (PyStr "Anonymous") PyNone (PyStr "captured/a.jpg")
                   (PyStr "happy") 1709812800 (Some (Table [] 0)) =
  (inr (),
   Some (Table ([] ++ [Row 1 "Anonymous" None
                           (stored_text (PyStr "captured/a.jpg"))
                           (stored_text (PyStr "happy")) 1709812800])
               1)).
Proof.
  apply (save_user_result_null_mode (PyStr "Anonymous") (PyStr "captured/a.jpg")
           (PyStr "happy") "Anonymous" 1709812800 (Table [] 0) 1); reflexivity.
Defined.

(** C4, counterexample: two rows inserted within one second are listed in
    insertion order, so the listing does not start with the most recently
    inserted row. *)
Lemma same_second_rows_listed_oldest_first :
  id <$> db_rows Demo.two_in_one_second = [1; 2] ∧
  ∃ listing,
    users_rows Demo.two_in_one_second = inr listing ∧
    id <$> listing = [1; 2] ∧
    head listing ≠ last (db_rows Demo.two_in_one_second).
Proof.
  split; [reflexivity|].
  eexists. split; [reflexivity|]. split; [reflexivity|].
  vm_compute. discriminate.
Qed.

Lemma users_rows_listing_witness :
  ∃ listing,
    users_rows (Some (Table (db_rows (dbfile Demo.outcome.2)) 3)) = inr listing ∧
    listing ≡ₚ db_rows (dbfile Demo.outcome.2) ∧
    length listing = length (db_rows (dbfile Demo.outcome.2)) ∧
    StronglySorted newer_first listing ∧
    (∀ τ : Z, filter (λ r, timestamp r = τ) listing
              = filter (λ r, timestamp r = τ) (db_rows (dbfile Demo.outcome.2))) ∧
    (db_rows (dbfile Demo.outcome.2) = [] → listing = []) ∧
    (StronglySorted older_than (db_rows (dbfile Demo.outcome.2)) →
       listing = reverse (db_rows (dbfile Demo.outcome.2)) ∧
       head listing = last (db_rows (dbfile Demo.outcome.2))).
Proof.
  apply (users_rows_listing (Table (db_rows (dbfile Demo.outcome.2)) 3)).
Defined.

(** C5, counterexample: after [cv2.putText] the array that was passed in
    no longer holds the raw frame, and after an iteration the only array
    there is holds the annotated picture. *)
Lemma raw_frame_is_overwritten :
  heap (cv2_putText Demo.stamp 0 "Mood: happy" (State ["dark"] ∅ None)).2 !! 0%nat
    ≠ heap (State (image:=string) ["dark"] ∅ None) !! 0%nat ∧
  heap (Demo.iteration (Tick "dark" Demo.noon 1709812800) Demo.started).2
    = ["dark[Mood: No face detected]"].
Proof. split; [discriminate|reflexivity]. Qed.

Lemma same_second_overwrites_witness :
  image_filename Demo.noon = image_filename Demo.noon_later ∧
  (∃ before after σ1 payload1 σ1',
     [Tick "two faces" Demo.noon 1709812800]
       = before ++ Tick "two faces" Demo.noon 1709812800 :: after ∧
     Demo.generate before Demo.started
       = (take (length before)
               (Demo.generate [Tick "two faces" Demo.noon 1709812800;
                               Tick "dark" Demo.noon_later 1709812800]
                              Demo.started).1.1,
          StopIteration, σ1) ∧
     Demo.iteration (Tick "two faces" Demo.noon 1709812800) σ1
       = (inr payload1, σ1') ∧
     files σ1' !! image_filename Demo.noon
       = Some (annotated Demo.classifier Demo.stamp
                 (Tick "two faces" Demo.noon 1709812800))) ∧
  files (Demo.generate [Tick "two faces" Demo.noon 1709812800;
                        Tick "dark" Demo.noon_later 1709812800]
                       Demo.started).2
    !! image_filename Demo.noon
    = Some (annotated Demo.classifier Demo.stamp
              (Tick "dark" Demo.noon_later 1709812800)) ∧
  length (Demo.generate [Tick "two faces" Demo.noon 1709812800;
                         Tick "dark" Demo.noon_later 1709812800]
                        Demo.started).1.1
    = 2%nat.
Proof.
  apply (same_second_overwrites Demo.classifier Demo.stamp Demo.jpeg
           [Tick "two faces" Demo.noon 1709812800]
           (Tick "two faces" Demo.noon 1709812800)
           (Tick "dark" Demo.noon_later 1709812800)
           Demo.started).
  - apply list_elem_of_here.
  - repeat split.
  - vm_compute. reflexivity.
Defined.

Lemma only_first_face_counts_witness :
  loop_body Demo.classifier Demo.stamp Demo.jpeg
            (Tick "two faces" Demo.noon 1709812800) Demo.started
    = loop_body Demo.classifier1 Demo.stamp Demo.jpeg
                (Tick "two faces" Demo.noon 1709812800) Demo.started ∧
  ∀ v, ({[ "dominant_emotion" := PyStr "happy" ]} : gmap string pyval)
         !! "dominant_emotion" = Some v →
    heap (loop_body Demo.classifier Demo.stamp Demo.jpeg
                    (Tick "two faces" Demo.noon 1709812800) Demo.started).2
      = heap Demo.started ++ [Demo.stamp "two faces" ("Mood: " +:+ py_str v)] ∧
    ∀ payload σ',
      loop_body Demo.classifier Demo.stamp Demo.jpeg
                (Tick "two faces" Demo.noon 1709812800) Demo.started
        = (inr payload, σ') →
      ∃ rowid,
        db_rows (dbfile σ') =
          db_rows (dbfile Demo.started) ++
            [Row rowid "Anonymous" (Some "online")
                 (Some (image_filename Demo.noon)) (stored_text v) 1709812800].
Proof.
  apply (only_first_face_counts Demo.classifier Demo.classifier1 Demo.stamp
           Demo.jpeg (Tick "two faces" Demo.noon 1709812800) Demo.started
           {[ "dominant_emotion" := PyStr "happy" ]}
           [ {[ "dominant_emotion" := PyStr "sad" ]} ] []); reflexivity.
Defined.

(** * Further properties of the code *)

(** ** [save_user_result] and [init_db] *)

Section StoreLaws.

Implicit Types (r : row) (rs : list row) (tbl : table) (db : database).

(** Everything a successful call tells about its arguments. *)
Lemma save_user_result_inversion n m p e now db db' :
  save_user_result n m p e now db = (inr (), db') →
  ∃ tbl, db = Some tbl ∧ largest_rowid_ever tbl < INT64_MAX ∧
         is_Some (stored_text n) ∧ bindable m = true ∧
         bindable p = true ∧ bindable e = true.
Proof.
  unfold save_user_result, insert_users, new_rowid, stored_text, bindable.
  intros H. repeat (case_match; simplify_eq; try done).
  eexists. split_and!; try done.
  by case_bool_decide.
Qed.

Lemma table_wf_insert tbl rowid r :
  table_wf tbl → new_rowid tbl = inr rowid → id r = rowid →
  table_wf (Table (rows tbl ++ [r]) rowid).
Proof.
  intros (Hsorted & Hids & Hseq) Hnew Hr.
  pose proof (new_rowid_above _ _ Hnew) as [Hrowid Hmax].
  pose proof (max_rowid_nonneg (rows tbl)) as Hlow.
  unfold largest_rowid_ever in Hrowid.
  split; [|split]; cbn.
  - rewrite fmap_app. apply StronglySorted_app_2; [|done|repeat constructor].
    intros x1 x2 (old & -> & Hold)%list_elem_of_fmap Hx2.
    apply list_elem_of_singleton in Hx2 as ->. rewrite Hr.
    by eapply new_rowid_fresh.
  - apply Forall_app. split.
    + eapply Forall_impl; [exact Hids|]. cbn. intros; lia.
    + apply Forall_singleton. lia.
  - lia.
Qed.

Lemma save_user_result_wf n m p e now db :
  db_wf db → db_wf (save_user_result n m p e now db).2.
Proof.
  intros Hwf.
  destruct (save_user_result n m p e now db) as [[err|[]] db'] eqn:Hs.
  - by apply save_user_result_failure in Hs as ->.
  - apply save_user_result_success
      in Hs as (tbl & rowid & s & -> & Hid & _ & _ & _ & ->).
    by apply table_wf_insert.
Qed.

Lemma table_wf_NoDup tbl : table_wf tbl → NoDup (id <$> rows tbl).
Proof.
  intros (Hsorted & _). induction Hsorted as [|x l _ IH Hx]; constructor; [|done].
  intros Hin. rewrite Forall_forall in Hx. specialize (Hx _ Hin). lia.
Qed.

(** A row that is strictly the newest comes out first. *)
Lemma order_by_timestamp_desc_newest rs r :
  Forall (λ old, timestamp old < timestamp r) rs →
  order_by_timestamp_desc (rs ++ [r]) = r :: order_by_timestamp_desc rs.
Proof.
  induction 1 as [|x rs Hx _ IH]; [done|].
  rewrite <-app_comm_cons, !order_by_timestamp_desc_cons, IH. cbn.
  rewrite bool_decide_eq_false_2; [done|lia].
Qed.

(** The calls that are accepted on a database no open connection holds. *)
Lemma save_user_result_accepts_unlocked (name mode path emotion : pyval)
    (now : Z) (db : database) :
  (∃ db', save_user_result name mode path emotion now db = (inr (), db')) ↔
  (∃ tbl, db = Some tbl ∧ largest_rowid_ever tbl < INT64_MAX) ∧
  is_Some (stored_text name) ∧
  bindable path = true ∧ bindable emotion = true ∧
  (mode = PyNone ∨ mode = PyStr "online" ∨ mode = PyStr "offline").
Proof.
  split.
  - intros [db' Hs].
    pose proof (save_user_result_inversion _ _ _ _ _ _ _ Hs)
      as (tbl & -> & Hroom & Hn & Hm & Hp & He).
    apply save_user_result_success
      in Hs as (_ & _ & _ & _ & _ & _ & _ & Hc & _).
    split_and!; [by exists tbl|done..|].
    destruct (decide (mode = PyNone)); [by left|].
    destruct (decide (mode = PyStr "online")); [by right; left|].
    destruct (decide (mode = PyStr "offline")); [by right; right|].
    by rewrite invalid_mode_check in Hc.
  - intros ((tbl & -> & Hroom) & [n Hn] & Hp & He & Hmode).
    revert Hn Hp He.
    unfold save_user_result, insert_users, new_rowid, stored_text, bindable.
    rewrite bool_decide_eq_true_2 by done.
    destruct (bind name) as [|vn]; [done|].
    destruct (bind path) as [|vp]; [done|].
    destruct (bind emotion) as [|ve]; [done|].
    intros -> _ _.
    destruct Hmode as [->|[->| ->]]; cbn; by eexists.
Qed.

(** X2: the name must not be [None].  With a table that has a rowid left
    and arguments that can be bound, a call with name [None] raises the
    NOT NULL violation on [name], whatever the mode, and stores nothing. *)
Theorem save_user_result_null_name (mode path emotion : pyval) (now : Z)
    (tbl : table) :
  largest_rowid_ever tbl < INT64_MAX →
  bindable mode = true → bindable path = true → bindable emotion = true →
  save_user_result PyNone mode path emotion now (Some tbl)
    = (inl (IntegrityError (NotNull "name")), Some tbl).
Proof.
  unfold save_user_result, insert_users, new_rowid, bindable.
  intros Hroom Hm Hp He. rewrite bool_decide_eq_true_2 by done. cbn.
  destruct (bind mode); [done|].
  destruct (bind path); [done|].
  by destruct (bind emotion).
Qed.

(** X3: the log is append-only.  Whatever the arguments and whether the
    call succeeds or fails, the rows that were stored are still there,
    unchanged and in the same order; a successful call adds exactly one
    row after them and a failed call adds none. *)
Theorem save_user_result_append_only (name mode path emotion : pyval)
    (now : Z) (db : database) :
  ∃ new,
    db_rows (save_user_result name mode path emotion now db).2
      = db_rows db ++ new ∧
    length new = match (save_user_result name mode path emotion now db).1 with
                 | inl _ => 0%nat
                 | inr _ => 1%nat
                 end.
Proof.
  destruct (save_user_result name mode path emotion now db)
    as [[err|[]] db'] eqn:Hs.
  - apply save_user_result_failure in Hs as ->.
    exists []. by rewrite app_nil_r.
  - apply save_user_result_success
      in Hs as (tbl & rowid & s & -> & _ & _ & _ & _ & ->).
    by eexists [_].
Qed.

(** X4: the key invariant is kept.  [init_db] and [save_user_result] take
    a well-formed database (rows in increasing rowid order, rowids
    positive and bounded by the AUTOINCREMENT counter) to a well-formed
    one, the database [init_db] creates is well formed, and in a
    well-formed database no two rows share an id. *)
Theorem store_invariant_kept (db : database) :
  db_wf db →
  db_wf (init_db db) ∧
  db_wf (init_db None) ∧
  NoDup (id <$> db_rows db) ∧
  ∀ name mode path emotion now,
    db_wf (save_user_result name mode path emotion now db).2 ∧
    NoDup (id <$> db_rows (save_user_result name mode path emotion now db).2).
Proof.
  intros Hwf.
  assert (Hnodup : ∀ db0, db_wf db0 → NoDup (id <$> db_rows db0)).
  { intros [tbl|] H0; [by apply table_wf_NoDup|constructor]. }
  assert (Hfresh : table_wf (Table [] 0)).
  { split; [constructor|split; [constructor|]]. cbn. unfold INT64_MAX. lia. }
  split_and!.
  - by destruct db.
  - done.
  - by apply Hnodup.
  - intros name mode path emotion now.
    pose proof (save_user_result_wf name mode path emotion now db Hwf).
    split; [done|]. by apply Hnodup.
Qed.

(** X5: insert, then list.  After a successful call the query of [/users]
    returns the new row together with every earlier row, each exactly
    once; the new row holds the arguments as they are stored, the given
    second as its timestamp, and an id above all earlier ids; and when
    every earlier row is strictly older, the new row is listed first. *)
Theorem save_then_list (name mode path emotion : pyval) (now : Z)
    (db db' : database) :
  save_user_result name mode path emotion now db = (inr (), db') →
  ∃ r listing,
    users_rows db' = inr listing ∧
    listing ≡ₚ r :: db_rows db ∧
    stored_text name = Some (Sqlite.name r) ∧
    usage_mode r = stored_text mode ∧
    image_path r = stored_text path ∧
    detected_emotion r = stored_text emotion ∧
    timestamp r = now ∧
    Forall (λ old, id old < id r) (db_rows db) ∧
    (Forall (λ old, timestamp old < now) (db_rows db) → head listing = Some r).
Proof.
  intros Hs.
  apply save_user_result_success
    in Hs as (tbl & rowid & s & -> & Hid & Hn & _ & _ & ->).
  set (r := Row rowid s (stored_text mode) (stored_text path)
                (stored_text emotion) now).
  exists r, (order_by_timestamp_desc (rows tbl ++ [r])).
  split_and!; [done| |done..| |].
  - cbn. rewrite order_by_timestamp_desc_perm.
    by rewrite Permutation_app_comm.
  - cbn. rewrite Forall_forall. intros old Hold. by eapply new_rowid_fresh.
  - cbn. intros Hold. by rewrite order_by_timestamp_desc_newest.
Qed.

End StoreLaws.

(** ** The page of [/users] *)

Section PageLaws.

Variable timestamp_text : Z → string.

#[local] Abbreviation page_of := (users timestamp_text).
#[local] Abbreviation block := (html_row timestamp_text).

Lemma string_cons_app (a : ascii) (s t : string) :
  String a s +:+ t = String a (s +:+ t).
Proof. reflexivity. Qed.

Lemma string_nil_app (t : string) : "" +:+ t = t.
Proof. reflexivity. Qed.

Lemma string_app_assoc (s t u : string) : (s +:+ t) +:+ u = s +:+ t +:+ u.
Proof.
  induction s as [|a s IH]; [done|].
  by rewrite !string_cons_app, IH.
Qed.

Lemma string_app_nil (s : string) : s +:+ "" = s.
Proof.
  induction s as [|a s IH]; [done|]. by rewrite string_cons_app, IH.
Qed.

Lemma occurs_here (s u : string) : occurs s (s +:+ u).
Proof. by exists "", u. Qed.

Lemma occurs_app_l (s t u : string) : occurs s t → occurs s (t +:+ u).
Proof.
  intros (before & after & ->). exists before, (after +:+ u).
  by rewrite !string_app_assoc.
Qed.

Lemma occurs_app_r (s t u : string) : occurs s u → occurs s (t +:+ u).
Proof.
  intros (before & after & ->). exists (t +:+ before), after.
  by rewrite !string_app_assoc.
Qed.

Lemma occurs_trans (s t u : string) : occurs s t → occurs t u → occurs s u.
Proof.
  intros (b1 & a1 & ->) (b2 & a2 & ->). exists (b2 +:+ b1), (a1 +:+ a2).
  by rewrite !string_app_assoc.
Qed.

(** What the page holds stays in it while rows are appended. *)
Lemma html_loop_keeps (s html : string) (fetched : list row) :
  occurs s html →
  occurs s (foldl (λ html r, html +:+ block r) html fetched).
Proof.
  revert html. induction fetched as [|r fetched IH]; intros html Hs; [done|].
  cbn. by apply IH, occurs_app_l.
Qed.

Lemma html_loop_row (html : string) (fetched : list row) (r : row) :
  r ∈ fetched →
  occurs (block r) (foldl (λ html r, html +:+ block r) html fetched).
Proof.
  intros Hr. revert html.
  induction Hr as [r fetched|r r' fetched _ IH]; intros html; cbn.
  - apply html_loop_keeps, occurs_app_r.
    rewrite <-(string_app_nil (block r)) at 2. apply occurs_here.
  - apply IH.
Qed.

(** The loop in closed form: the page begins with the head. *)
Lemma html_loop_head (html : string) (fetched : list row) :
  ∃ body, foldl (λ html r, html +:+ block r) html fetched = html +:+ body.
Proof.
  revert html. induction fetched as [|r fetched IH]; intros html; cbn.
  - exists "". by rewrite string_app_nil.
  - destruct (IH (html +:+ block r)) as [body ->].
    exists (block r +:+ body). by rewrite string_app_assoc.
Qed.

(** A text between two markers, inside a longer line. *)
Lemma occurs_between (pre o mid c c2 rest : string) :
  occurs (o +:+ mid +:+ c) ((pre +:+ o) +:+ mid +:+ (c +:+ c2) +:+ rest).
Proof. exists pre, (c2 +:+ rest). by rewrite !string_app_assoc. Qed.

Ltac find_cell :=
  first [ eapply (occurs_between "                " "<td>" _ "</td>" "" _)
        | apply occurs_app_r; find_cell ].

Ltac find_link :=
  first [ eapply (occurs_between "                <td>" "<a href='/" _
                                 "' target='_blank'>" "View</a></td>" _)
        | apply occurs_app_r; find_link ].

(** X6: the page shows the stored texts as they are.  For every stored
    row the page of [/users] contains the row's block, and in it the id,
    the name, the mode, the emotion and the link to the image path, each
    character for character as stored (a NULL as the text None): nothing
    is escaped or rewritten on the way to the page. *)
Theorem users_page_verbatim (tbl : table) (r : row) :
  r ∈ rows tbl →
  ∃ page,
    page_of (Some tbl) = inr page ∧
    occurs (block r) page ∧
    occurs ("<td>" +:+ pretty (id r) +:+ "</td>") page ∧
    occurs ("<td>" +:+ name r +:+ "</td>") page ∧
    occurs ("<td>" +:+ format_column (usage_mode r) +:+ "</td>") page ∧
    occurs ("<td>" +:+ format_column (detected_emotion r) +:+ "</td>") page ∧
    occurs ("<a href='/" +:+ format_column (image_path r) +:+ "' target='_blank'>")
           page.
Proof.
  intros Hr. eexists. split; [reflexivity|].
  assert (Hblock : occurs (block r)
            (foldl (λ html r, html +:+ block r) html_head
                   (order_by_timestamp_desc (rows tbl)) +:+ html_tail)).
  { apply occurs_app_l, html_loop_row.
    by rewrite order_by_timestamp_desc_perm. }
  split; [done|].
  split_and!; (eapply occurs_trans; [|exact Hblock]); unfold html_row.
  - find_cell.
  - find_cell.
  - find_cell.
  - find_cell.
  - find_link.
Qed.

(** X7: the frame of the page.  On a database without the table the
    route raises the error of the query and builds no page.  Otherwise
    the page starts with the head of the template and ends with the
    closing tags, and with no stored rows it is the head followed
    directly by the closing tags. *)
Theorem users_page_frame (db : database) :
  match db with
  | None => page_of db = inl (OperationalError "no such table: users")
  | Some tbl =>
      ∃ body, page_of db = inr (html_head +:+ body +:+ html_tail) ∧
              (rows tbl = [] → body = "")
  end.
Proof.
  destruct db as [tbl|]; [|done].
  unfold users, users_rows.
  destruct (rows tbl) as [|r rs] eqn:Hrows.
  - by exists "".
  - destruct (html_loop_head html_head (order_by_timestamp_desc (r :: rs)))
      as [body Hbody].
    exists body. rewrite Hbody, string_app_assoc. by split.
Qed.

End PageLaws.

(** ** File names *)

Lemma digit_eq (a b : nat) :
  digit a = digit b → (a `mod` 10 = b `mod` 10)%nat.
Proof.
  unfold digit. intros H. apply (f_equal nat_of_ascii) in H.
  pose proof (Nat.mod_upper_bound a 10). pose proof (Nat.mod_upper_bound b 10).
  rewrite !nat_ascii_embedding in H by lia. lia.
Qed.

Lemma string_cons_inj (a b : ascii) (s t : string) :
  String a s = String b t → a = b ∧ s = t.
Proof. by intros [= -> ->]. Qed.

Lemma two_digits_eq (n m : nat) :
  two_digits n = two_digits m →
  ((n `div` 10) `mod` 10 = (m `div` 10) `mod` 10 ∧ n `mod` 10 = m `mod` 10)%nat.
Proof.
  unfold two_digits.
  intros [H1 [H0 _]%string_cons_inj]%string_cons_inj.
  split; by apply digit_eq.
Qed.

Lemma two_digits_inj (n m : nat) :
  (n < 100)%nat → (m < 100)%nat → two_digits n = two_digits m → n = m.
Proof.
  intros Hn Hm [H1 H0]%two_digits_eq.
  pose proof (Nat.div_mod_eq n 10). pose proof (Nat.div_mod_eq m 10).
  rewrite !Nat.mod_small in H1 by (apply Nat.Div0.div_lt_upper_bound; lia).
  lia.
Qed.

Lemma four_digits_inj (n m : nat) :
  Z.of_nat n < 10000 → Z.of_nat m < 10000 →
  four_digits n = four_digits m → n = m.
Proof.
  unfold four_digits.
  intros Hn Hm [H3%digit_eq [H2%digit_eq [H1 H0]%two_digits_eq]%string_cons_inj]%string_cons_inj.
  assert (Hdigits : ∀ k, Z.of_nat k < 10000 →
    k = (1000 * ((k `div` 1000) `mod` 10) + 100 * ((k `div` 100) `mod` 10)
         + 10 * ((k `div` 10) `mod` 10) + k `mod` 10)%nat).
  { intros k Hk.
    replace (k `div` 100)%nat with ((k `div` 10) `div` 10)%nat
      by (by rewrite Nat.Div0.div_div).
    replace (k `div` 1000)%nat with (((k `div` 10) `div` 10) `div` 10)%nat
      by (by rewrite !Nat.Div0.div_div).
    pose proof (Nat.div_mod_eq k 10).
    pose proof (Nat.div_mod_eq (k `div` 10) 10).
    pose proof (Nat.div_mod_eq ((k `div` 10) `div` 10) 10).
    pose proof (Nat.div_mod_eq (((k `div` 10) `div` 10) `div` 10) 10).
    assert ((((k `div` 10) `div` 10) `div` 10) `div` 10 = 0)%nat.
    { apply Nat.div_small_iff; [done|].
      apply Nat.Div0.div_lt_upper_bound, Nat.Div0.div_lt_upper_bound,
        Nat.Div0.div_lt_upper_bound. lia. }
    lia. }
  rewrite (Hdigits n Hn), (Hdigits m Hm). congruence.
Qed.

Lemma string_app_inj_length (s1 s2 t1 t2 : string) :
  String.length s1 = String.length s2 →
  s1 +:+ t1 = s2 +:+ t2 → s1 = s2 ∧ t1 = t2.
Proof.
  revert s2. induction s1 as [|a s1 IH]; intros [|b s2]; try done.
  intros [= Hlen]. rewrite !string_cons_app.
  intros [-> H]%string_cons_inj.
  by destruct (IH _ Hlen H) as [-> ->].
Qed.

(** Clock readings in Python's ranges that give one file name lie in one
    second. *)
Lemma image_filename_inj (d1 d2 : datetime) :
  datetime_valid d1 → datetime_valid d2 →
  image_filename d1 = image_filename d2 → same_second d1 d2.
Proof.
  intros V1 V2. unfold image_filename, strftime.
  unfold datetime_valid in V1, V2.
  intros H. apply (inj (String.app "captured/")) in H.
  apply string_app_inj_length in H as [H _]; [|done].
  apply string_app_inj_length in H as [Hy H]; [|done].
  apply string_app_inj_length in H as [Hm H]; [|done].
  apply string_app_inj_length in H as [Hd H]; [|done].
  apply string_app_inj_length in H as [_ H]; [|done].
  apply string_app_inj_length in H as [HH H]; [|done].
  apply string_app_inj_length in H as [HM HS]; [|done].
  unfold same_second. split_and!.
  - apply four_digits_inj; [lia..|done].
  - apply two_digits_inj; [lia..|done].
  - apply two_digits_inj; [lia..|done].
  - apply two_digits_inj; [lia..|done].
  - apply two_digits_inj; [lia..|done].
  - apply two_digits_inj; [lia..|done].
Qed.

(** X8: file names collide within a second and only there.  For clock
    readings in the ranges of a Python [datetime], two frames get the
    same artifact path exactly when they are processed in the same
    wall-clock second. *)
Theorem image_filename_collides_iff (d1 d2 : datetime) :
  datetime_valid d1 → datetime_valid d2 →
  image_filename d1 = image_filename d2 ↔ same_second d1 d2.
Proof.
  intros V1 V2. split.
  - by apply image_filename_inj.
  - intros Hsame. unfold image_filename.
    by rewrite (strftime_same_second _ _ Hsame).
Qed.

(** ** More on iterations and runs *)

Section PipelineLaws.

Context {image : Type}.
Variable analyze : image → analysis.
Variable putText : image → string → image.
Variable imencode : image → list Byte.byte.

Implicit Types (t : tick (image:=image)) (σ : state (image:=image)).
Implicit Types (cam : list (tick (image:=image))).

#[local] Abbreviation body := (loop_body analyze putText imencode).
#[local] Abbreviation run := (generate_frames analyze putText imencode).
#[local] Abbreviation label := (emotion_of analyze).
#[local] Abbreviation drawn := (annotated analyze putText).

Lemma loop_body_heap t σ : heap (body t σ).2 = heap σ ++ [drawn t].
Proof. by rewrite loop_body_run. Qed.

Lemma loop_body_files t σ :
  files (body t σ).2 = <[image_filename (wall t) := drawn t]> (files σ).
Proof. by rewrite loop_body_run. Qed.

Lemma loop_body_dbfile t σ :
  dbfile (body t σ).2 =
  (save_user_result (PyStr "Anonymous") (PyStr "online")
     (PyStr (image_filename (wall t))) (label (frame t)) (utc t) (dbfile σ)).2.
Proof. by rewrite loop_body_run. Qed.

(** A run writes no file but those named after its frames' clock
    readings, and keeps the arrays that were there. *)
Lemma run_frame cam σ payloads (e : ending) σ' (path : string) :
  run cam σ = (payloads, e, σ') →
  heap σ `prefix_of` heap σ' ∧
  (Forall (λ t, image_filename (wall t) ≠ path) cam →
   files σ' !! path = files σ !! path) ∧
  (is_Some (files σ !! path) → is_Some (files σ' !! path)).
Proof.
  revert σ payloads e. induction cam as [|t cam IH]; intros σ payloads e.
  { by intros [= _ _ <-]. }
  rewrite generate_frames_cons.
  pose proof (loop_body_heap t σ) as Hheap.
  pose proof (loop_body_files t σ) as Hfiles.
  destruct (body t σ) as [[err|payload] σ1]; cbn in Hheap, Hfiles.
  - intros [= _ _ <-]. rewrite Hheap, Hfiles. split_and!.
    + by apply prefix_app_r.
    + intros [Hne _]%Forall_cons. by rewrite lookup_insert_ne.
    + intros Hsome. destruct (decide (image_filename (wall t) = path)) as [<-|].
      * by rewrite lookup_insert_eq.
      * by rewrite lookup_insert_ne.
  - destruct (run cam σ1) as [[ps e1] σ2] eqn:Hrun.
    intros [= _ _ <-].
    destruct (IH _ _ _ Hrun) as (Hpre & Hother & Hmono).
    rewrite Hheap in Hpre. rewrite Hfiles in Hother, Hmono. split_and!.
    + by eapply prefix_app_l.
    + intros [Hne Hrest]%Forall_cons.
      by rewrite Hother, lookup_insert_ne.
    + intros Hsome. apply Hmono.
      destruct (decide (image_filename (wall t) = path)) as [<-|].
      * by rewrite lookup_insert_eq.
      * by rewrite lookup_insert_ne.
Qed.

Lemma bind_error (v : pyval) (e : exn) :
  bind v = inl e → ∀ c, e ≠ IntegrityError c.
Proof.
  destruct v; cbn; try case_bool_decide; intros [= <-]; done.
Qed.

(** X10: what a failed iteration leaves behind.  When the insert fails,
    the annotated frame has already been written under its path and the
    camera's array has been drawn on, while the database is exactly as it
    was: the artifact exists without a record. *)
Theorem failed_iteration_leaves_artifact t σ (e : exn) σ' :
  body t σ = (inl e, σ') →
  σ' = State (heap σ ++ [drawn t])
             (<[image_filename (wall t) := drawn t]> (files σ))
             (dbfile σ) ∧
  files σ' !! image_filename (wall t) = Some (drawn t) ∧
  db_rows (dbfile σ') = db_rows (dbfile σ).
Proof.
  intros Hbody.
  pose proof (loop_body_failure _ _ _ _ _ _ _ Hbody) as Hdb.
  pose proof (loop_body_heap t σ) as Hheap.
  pose proof (loop_body_files t σ) as Hfiles.
  rewrite Hbody in Hheap, Hfiles. cbn in Hheap, Hfiles.
  destruct σ' as [h f d]. cbn in *. subst.
  split_and!; [done| |done]. apply lookup_insert_eq.
Qed.

(** X11: a run ends at the first failure.  A run that ends with an
    exception has yielded exactly the frames before the failing one, the
    exception is the one of the failing frame's iteration, and no later
    frame has any effect on the outcome. *)
Theorem run_stops_at_first_failure cam σ payloads (e : exn) σ' :
  run cam σ = (payloads, Propagated e, σ') →
  ∃ before t after σ1,
    cam = before ++ t :: after ∧
    run before σ = (payloads, StopIteration, σ1) ∧
    length payloads = length before ∧
    body t σ1 = (inl e, σ') ∧
    ∀ others, run (before ++ t :: others) σ = (payloads, Propagated e, σ').
Proof.
  revert σ payloads. induction cam as [|t cam IH]; intros σ payloads; [done|].
  rewrite generate_frames_cons.
  destruct (body t σ) as [[err|payload] σ1] eqn:Hbody.
  - intros [= <- <- <-]. exists [], t, cam, σ. split_and!; [done..|].
    intros others. cbn [app]. by rewrite generate_frames_cons, Hbody.
  - destruct (run cam σ1) as [[ps e1] σ2] eqn:Hrun.
    intros [= <- -> <-].
    destruct (IH _ _ Hrun) as (before & t' & after & σk & -> & Hb & Hlen & Ht & Hany).
    exists (t :: before), t', after, σk. split_and!.
    + done.
    + by rewrite generate_frames_cons, Hbody, Hb.
    + cbn. by rewrite Hlen.
    + done.
    + intros others. rewrite <-app_comm_cons, generate_frames_cons, Hbody.
      by rewrite Hany.
Qed.

(** X12: runs compose.  A run over [cam1 ++ cam2] is the run over [cam1]
    and, if that one reached [break], the run over [cam2] from the state
    it left, with the yielded chunks in sequence; if the first run ended
    with an exception, so does the whole, at the same point. *)
Theorem generate_frames_compose cam1 cam2 σ :
  generate_frames analyze putText imencode (cam1 ++ cam2) σ =
  match generate_frames analyze putText imencode cam1 σ with
  | (payloads1, StopIteration, σ1) =>
      let '(payloads2, e, σ2) :=
        generate_frames analyze putText imencode cam2 σ1 in
      (payloads1 ++ payloads2, e, σ2)
  | (payloads1, Propagated e, σ1) => (payloads1, Propagated e, σ1)
  end.
Proof.
  revert σ. induction cam1 as [|t cam1 IH]; intros σ.
  { cbn. by destruct (run cam2 σ) as [[ps e] σ2]. }
  rewrite <-app_comm_cons, !generate_frames_cons.
  destruct (body t σ) as [[err|payload] σ1]; [done|].
  rewrite IH.
  destruct (run cam1 σ1) as [[ps1 [|e1]] σ2]; [|done].
  by destruct (run cam2 σ2) as [[ps2 e2] σ3].
Qed.

(** The rows after a run, by induction on the frames. *)
Lemma run_rows_closed_form cam σ (tbl : table) payloads (e : ending) σ' :
  dbfile σ = Some tbl →
  run cam σ = (payloads, e, σ') →
  db_rows (dbfile σ') =
    rows tbl ++
    imap (λ k t, record_of analyze t (largest_rowid_ever tbl + 1 + Z.of_nat k))
         (take (length payloads) cam).
Proof.
  revert σ tbl payloads e.
  induction cam as [|t cam IH]; intros σ tbl payloads e Hdb.
  { intros [= <- _ <-]. by rewrite Hdb, app_nil_r. }
  rewrite generate_frames_cons.
  destruct (body t σ) as [[err|payload] σ1] eqn:Hbody.
  { intros [= <- _ <-]. apply loop_body_failure in Hbody as ->.
    by rewrite Hdb, app_nil_r. }
  destruct (run cam σ1) as [[ps e1] σ2] eqn:Hrun.
  intros [= <- _ <-].
  apply loop_body_success
    in Hbody as (_ & _ & _ & tbl0 & rowid & Hdb0 & Hid & Hdb1).
  rewrite Hdb in Hdb0. injection Hdb0 as <-.
  rewrite (IH _ _ _ _ Hdb1 Hrun). cbn [rows length take].
  rewrite imap_cons, <-app_assoc. cbn [app].
  rewrite (largest_rowid_ever_insert tbl _ rowid Hid) by done.
  apply new_rowid_above in Hid as [-> _].
  do 2 f_equal; [f_equal; lia|].
  apply imap_ext. intros k t' _. cbn. f_equal. lia.
Qed.

(** X13: the table after a run, in closed form.  Starting from an
    existing table, the rows after a run are the earlier rows followed by
    the records of the yielded frames in order, and their ids are
    consecutive: the k-th yielded frame (counting from 0) gets the
    largest rowid the table ever had plus 1 + k. *)
Theorem table_after_run cam σ (tbl : table) payloads (e : ending) σ' :
  dbfile σ = Some tbl →
  run cam σ = (payloads, e, σ') →
  db_rows (dbfile σ') =
    rows tbl ++
    imap (λ k t, record_of analyze t (largest_rowid_ever tbl + 1 + Z.of_nat k))
         (take (length payloads) cam) ∧
  id <$> db_rows (dbfile σ') =
    (id <$> rows tbl) ++
    imap (λ k _, largest_rowid_ever tbl + 1 + Z.of_nat k)
         (take (length payloads) cam).
Proof.
  intros Hdb Hrun.
  pose proof (run_rows_closed_form _ _ _ _ _ _ Hdb Hrun) as Hrows.
  split; [done|].
  rewrite Hrows, fmap_app, fmap_imap. f_equal.
Qed.

(** X14: every record points at a stored artifact.  After any run, each
    row the run appended has an image path, and a file is stored under
    that path. *)
Theorem records_reference_stored_artifacts cam σ payloads (e : ending) σ' :
  run cam σ = (payloads, e, σ') →
  ∃ new,
    db_rows (dbfile σ') = db_rows (dbfile σ) ++ new ∧
    Forall (λ r, ∃ path, image_path r = Some path ∧ is_Some (files σ' !! path))
           new.
Proof.
  revert σ payloads e. induction cam as [|t cam IH]; intros σ payloads e.
  { intros [= _ _ <-]. exists []. by rewrite app_nil_r. }
  rewrite generate_frames_cons.
  destruct (body t σ) as [[err|payload] σ1] eqn:Hbody.
  { intros [= _ _ <-]. apply loop_body_failure in Hbody as ->.
    exists []. by rewrite app_nil_r. }
  destruct (run cam σ1) as [[ps e1] σ2] eqn:Hrun.
  intros [= _ _ <-].
  apply loop_body_success
    in Hbody as (_ & _ & Hfiles & tbl & rowid & Hdb & _ & Hdb1).
  destruct (IH _ _ _ Hrun) as (new & Hrows & Hnew).
  exists (record_of analyze t rowid :: new). split.
  - rewrite Hrows, Hdb1, Hdb. cbn. by rewrite <-app_assoc.
  - constructor; [|done].
    exists (image_filename (wall t)). split; [done|].
    eapply (run_frame _ _ _ _ _ _ Hrun). rewrite Hfiles.
    by rewrite lookup_insert_eq.
Qed.

(** X15: what a run leaves alone.  A run changes no array that existed
    before it and no file under a path other than the paths named after
    its frames' clock readings; files it does not overwrite stay as they
    were. *)
Theorem run_touches_only_its_files cam σ payloads (e : ending) σ' :
  run cam σ = (payloads, e, σ') →
  heap σ `prefix_of` heap σ' ∧
  ∀ path, Forall (λ t, image_filename (wall t) ≠ path) cam →
          files σ' !! path = files σ !! path.
Proof.
  intros Hrun. split.
  - by eapply (run_frame _ _ _ _ _ "" Hrun).
  - intros path. by eapply (run_frame _ _ _ _ _ path Hrun).
Qed.

(** X16: when an artifact survives.  In a run that reaches [break], the
    picture of a frame is still stored under the frame's path at the end
    if no later frame was processed in the same wall-clock second. *)
Theorem artifact_survives before t after σ payloads σ' :
  run (before ++ t :: after) σ = (payloads, StopIteration, σ') →
  datetime_valid (wall t) →
  Forall (λ t', datetime_valid (wall t') ∧ ¬ same_second (wall t') (wall t))
         after →
  files σ' !! image_filename (wall t) = Some (drawn t).
Proof.
  intros Hrun Vt Hafter.
  apply generate_frames_app in Hrun as (ps1 & σ1 & ps2 & _ & Hrun & _).
  apply generate_frames_head in Hrun as (p & σ2 & ps3 & Hbody & Hrun & _).
  apply loop_body_success in Hbody as (_ & _ & Hfiles & _).
  destruct (run_frame _ _ _ _ _ (image_filename (wall t)) Hrun)
    as (_ & Hother & _).
  rewrite Hother, Hfiles; [apply lookup_insert_eq|].
  eapply Forall_impl; [exact Hafter|]. cbn.
  intros t' [Vt' Hne] Heq. by apply Hne, image_filename_inj.
Qed.

(** X17: the pipeline keeps the key invariant.  A run started on a
    well-formed database leaves a well-formed database, however it ends:
    rows in increasing rowid order, no id used twice. *)
Theorem pipeline_keeps_store_invariant cam σ payloads (e : ending) σ' :
  db_wf (dbfile σ) →
  run cam σ = (payloads, e, σ') →
  db_wf (dbfile σ') ∧ NoDup (id <$> db_rows (dbfile σ')).
Proof.
  intros Hwf Hrun.
  cut (db_wf (dbfile σ')).
  { intros Hwf'. split; [done|].
    destruct (dbfile σ'); [by apply table_wf_NoDup|constructor]. }
  revert σ payloads e Hwf Hrun.
  induction cam as [|t cam IH]; intros σ payloads e Hwf.
  { by intros [= _ _ <-]. }
  rewrite generate_frames_cons.
  pose proof (loop_body_dbfile t σ) as Hdb.
  destruct (body t σ) as [[err|payload] σ1]; cbn in Hdb.
  - intros [= _ _ <-]. rewrite Hdb. by apply save_user_result_wf.
  - destruct (run cam σ1) as [[ps e1] σ2] eqn:Hrun.
    intros [= _ _ <-]. eapply IH; [|done].
    rewrite Hdb. by apply save_user_result_wf.
Qed.

(** X18: what the stream carries.  In any run, however it ends, the
    yielded chunks are the multipart parts of the annotated frames, one
    per frame from the first on, in camera order, none skipped and none
    repeated; a run that reaches [break] has yielded every frame. *)
Theorem payloads_are_annotated_frames cam σ payloads (e : ending) σ' :
  run cam σ = (payloads, e, σ') →
  payloads = (λ t, chunk (imencode (drawn t))) <$> take (length payloads) cam ∧
  (e = StopIteration → length payloads = length cam).
Proof.
  revert σ payloads e σ'. induction cam as [|t cam IH]; intros σ payloads e σ'.
  { by intros [= <- <- <-]. }
  rewrite generate_frames_cons.
  destruct (body t σ) as [[err|payload] σ1] eqn:Hbody.
  { by intros [= <- <- <-]. }
  destruct (run cam σ1) as [[ps e1] σ2] eqn:Hrun.
  intros [= <- <- <-].
  apply loop_body_success in Hbody as (-> & _).
  destruct (IH _ _ _ _ Hrun) as [Hps Hlen]. split.
  - cbn. by rewrite <-Hps.
  - intros He. cbn. by rewrite Hlen.
Qed.

Lemma run_table_exists cam σ payloads (e : ending) σ' :
  is_Some (dbfile σ) → run cam σ = (payloads, e, σ') → is_Some (dbfile σ').
Proof.
  revert σ payloads e. induction cam as [|t cam IH]; intros σ payloads e Hdb.
  { by intros [= _ _ <-]. }
  rewrite generate_frames_cons.
  destruct (body t σ) as [[err|payload] σ1] eqn:Hbody.
  - intros [= _ _ <-]. by apply loop_body_failure in Hbody as ->.
  - destruct (run cam σ1) as [[ps e1] σ2] eqn:Hrun.
    intros [= _ _ <-]. eapply IH; [|done].
    apply loop_body_success in Hbody as (_ & _ & _ & tbl & rowid & _ & _ & ->).
    by eexists.
Qed.

Lemma imap_records_sorted (f : nat → tick → row) cam :
  (∀ k t, timestamp (f k t) = utc t) →
  StronglySorted (λ t1 t2, utc t1 < utc t2) cam →
  StronglySorted older_than (imap f cam).
Proof.
  intros Hf Hsorted. revert f Hf.
  induction Hsorted as [|t cam _ IH Ht]; intros f Hf; [constructor|].
  rewrite imap_cons. constructor; [apply IH; intros; apply Hf|].
  apply Forall_lookup. intros i r. rewrite list_lookup_imap.
  destruct (cam !! i) as [t'|] eqn:Hi; [|done]. intros [= <-].
  unfold older_than. cbn. rewrite !Hf.
  rewrite Forall_lookup in Ht. by eapply Ht.
Qed.

(** X19: the page after a run.  When the camera's frames fall into
    strictly increasing UTC seconds, all later than the rows already
    stored (themselves in strictly increasing order), the query of
    [/users] after the run lists the whole table in reverse insertion
    order: the last yielded frame first, the oldest earlier row last. *)
Theorem users_after_run cam σ (tbl : table) payloads (e : ending) σ' :
  dbfile σ = Some tbl →
  StronglySorted older_than (rows tbl) →
  Forall (λ old, Forall (λ t, timestamp old < utc t) cam) (rows tbl) →
  StronglySorted (λ t1 t2, utc t1 < utc t2) cam →
  run cam σ = (payloads, e, σ') →
  users_rows (dbfile σ') =
    inr (reverse
           (imap (λ k t, record_of analyze t
                           (largest_rowid_ever tbl + 1 + Z.of_nat k))
                 (take (length payloads) cam))
         ++ reverse (rows tbl)).
Proof.
  intros Hdb Hold Holder Hcam Hrun.
  pose proof (run_rows_closed_form _ _ _ _ _ _ Hdb Hrun) as Hrows.
  destruct (run_table_exists _ _ _ _ _ (mk_is_Some _ _ Hdb) Hrun) as [tbl' Hdb'].
  rewrite Hdb' in Hrows |- *. cbn in Hrows. unfold users_rows.
  rewrite Hrows, <-reverse_app. f_equal.
  apply order_by_timestamp_desc_reverse, StronglySorted_app_2; [|done|].
  - intros old r Hin (i & Hi)%list_elem_of_lookup.
    rewrite list_lookup_imap in Hi.
    destruct (take (length payloads) cam !! i) as [t|] eqn:Ht; [|done].
    injection Hi as <-. unfold older_than. cbn.
    rewrite Forall_forall in Holder. specialize (Holder _ Hin).
    rewrite Forall_forall in Holder. apply Holder.
    apply list_elem_of_lookup_2 in Ht. by eapply subseteq_take.
  - apply imap_records_sorted; [done|].
    rewrite <-(take_drop (length payloads) cam) in Hcam.
    by apply StronglySorted_app_1_l in Hcam.
Qed.

End PipelineLaws.

(** ** The further properties on concrete data *)

Lemma save_user_result_null_name_witness :
  save_user_result PyNone (PyStr "hybrid") (PyStr "captured/a.jpg")
                   (PyStr "happy") 1709812800 (Some Scenario.markup_table)
    = (inl (IntegrityError (NotNull "name")), Some Scenario.markup_table).
Proof.
  apply (save_user_result_null_name (PyStr "hybrid") (PyStr "captured/a.jpg")
           (PyStr "happy") 1709812800 Scenario.markup_table); reflexivity.
Defined.

Lemma store_invariant_kept_witness :
  db_wf (init_db (Some Scenario.markup_table)) ∧
  db_wf (init_db None) ∧
  NoDup (id <$> db_rows (Some Scenario.markup_table)) ∧
  ∀ name mode path emotion now,
    db_wf (save_user_result name mode path emotion now
             (Some Scenario.markup_table)).2 ∧
    NoDup (id <$> db_rows (save_user_result name mode path emotion now
                             (Some Scenario.markup_table)).2).
Proof.
  apply (store_invariant_kept (Some Scenario.markup_table)).
  split; [repeat constructor|split; [repeat constructor; cbn; lia|]].
  cbn. unfold INT64_MAX. lia.
Defined.

Lemma save_then_list_witness :
  ∃ r listing,
    users_rows (save_user_result (PyStr "Anonymous") (PyStr "offline")
                  (PyStr "captured/b.jpg") (PyInt 7) 1709812801
                  (Some Scenario.markup_table)).2 = inr listing ∧
    listing ≡ₚ r :: db_rows (Some Scenario.markup_table) ∧
    stored_text (PyStr "Anonymous") = Some (name r) ∧
    usage_mode r = stored_text (PyStr "offline") ∧
    image_path r = stored_text (PyStr "captured/b.jpg") ∧
    detected_emotion r = stored_text (PyInt 7) ∧
    timestamp r = 1709812801 ∧
    Forall (λ old, id old < id r) (db_rows (Some Scenario.markup_table)) ∧
    (Forall (λ old, timestamp old < 1709812801)
            (db_rows (Some Scenario.markup_table)) →
     head listing = Some r).
Proof.
  apply (save_then_list (PyStr "Anonymous") (PyStr "offline")
           (PyStr "captured/b.jpg") (PyInt 7) 1709812801
           (Some Scenario.markup_table)).
  reflexivity.
Defined.

Lemma users_page_verbatim_witness :
  ∃ page,
    users Scenario.seconds_text (Some Scenario.markup_table) = inr page ∧
    occurs (html_row Scenario.seconds_text Scenario.markup_row) page ∧
    occurs ("<td>" +:+ pretty (id Scenario.markup_row) +:+ "</td>") page ∧
    occurs ("<td>" +:+ name Scenario.markup_row +:+ "</td>") page ∧
    occurs ("<td>" +:+ format_column (usage_mode Scenario.markup_row) +:+ "</td>")
           page ∧
    occurs ("<td>" +:+ format_column (detected_emotion Scenario.markup_row)
            +:+ "</td>") page ∧
    occurs ("<a href='/" +:+ format_column (image_path Scenario.markup_row)
            +:+ "' target='_blank'>") page.
Proof.
  apply (users_page_verbatim Scenario.seconds_text Scenario.markup_table
           Scenario.markup_row).
  apply list_elem_of_here.
Defined.

Lemma image_filename_collides_iff_witness :
  image_filename Demo.noon = image_filename Demo.noon_later
  ↔ same_second Demo.noon Demo.noon_later.
Proof.
  apply (image_filename_collides_iff Demo.noon Demo.noon_later);
    unfold datetime_valid; cbn; lia.
Defined.

Lemma failed_iteration_leaves_artifact_witness :
  (Demo.iteration Scenario.first_frame Scenario.unstarted).2
    = State (heap Scenario.unstarted ++
               [annotated Demo.classifier Demo.stamp Scenario.first_frame])
            (<[image_filename (wall Scenario.first_frame)
                 := annotated Demo.classifier Demo.stamp Scenario.first_frame]>
               (files Scenario.unstarted))
            (dbfile Scenario.unstarted) ∧
  files (Demo.iteration Scenario.first_frame Scenario.unstarted).2
    !! image_filename (wall Scenario.first_frame)
    = Some (annotated Demo.classifier Demo.stamp Scenario.first_frame) ∧
  db_rows (dbfile (Demo.iteration Scenario.first_frame Scenario.unstarted).2)
    = db_rows (dbfile Scenario.unstarted).
Proof.
  apply (failed_iteration_leaves_artifact Demo.classifier Demo.stamp Demo.jpeg
           Scenario.first_frame Scenario.unstarted
           (OperationalError "no such table: users")).
  vm_compute. reflexivity.
Defined.

Lemma run_stops_at_first_failure_witness :
  ∃ before t after σ1,
    Demo.camera = before ++ t :: after ∧
    Demo.generate before Scenario.unstarted
      = (Scenario.failed_outcome.1.1, StopIteration, σ1) ∧
    length Scenario.failed_outcome.1.1 = length before ∧
    Demo.iteration t σ1
      = (inl (OperationalError "no such table: users"),
         Scenario.failed_outcome.2) ∧
    ∀ others,
      Demo.generate (before ++ t :: others) Scenario.unstarted
        = (Scenario.failed_outcome.1.1,
           Propagated (OperationalError "no such table: users"),
           Scenario.failed_outcome.2).
Proof.
  apply (run_stops_at_first_failure Demo.classifier Demo.stamp Demo.jpeg
           Demo.camera Scenario.unstarted).
  vm_compute. reflexivity.
Defined.

Lemma table_after_run_witness :
  db_rows (dbfile Demo.second_outcome.2) =
    rows (Table (db_rows (dbfile Demo.outcome.2)) 3) ++
    imap (λ k t, record_of Demo.classifier t
                   (largest_rowid_ever (Table (db_rows (dbfile Demo.outcome.2)) 3)
                    + 1 + Z.of_nat k))
         (take (length Demo.second_outcome.1.1) Demo.camera) ∧
  id <$> db_rows (dbfile Demo.second_outcome.2) =
    (id <$> rows (Table (db_rows (dbfile Demo.outcome.2)) 3)) ++
    imap (λ k _, largest_rowid_ever (Table (db_rows (dbfile Demo.outcome.2)) 3)
                 + 1 + Z.of_nat k)
         (take (length Demo.second_outcome.1.1) Demo.camera).
Proof.
  apply (table_after_run Demo.classifier Demo.stamp Demo.jpeg
           Demo.camera Demo.outcome.2
           (Table (db_rows (dbfile Demo.outcome.2)) 3)
           Demo.second_outcome.1.1 Demo.second_outcome.1.2
           Demo.second_outcome.2).
  - vm_compute. reflexivity.
  - vm_compute. reflexivity.
Defined.

Lemma records_reference_stored_artifacts_witness :
  ∃ new,
    db_rows (dbfile Demo.outcome.2) = db_rows (dbfile Demo.started) ++ new ∧
    Forall (λ r, ∃ path, image_path r = Some path ∧
                         is_Some (files Demo.outcome.2 !! path))
           new.
Proof.
  apply (records_reference_stored_artifacts Demo.classifier Demo.stamp Demo.jpeg
           Demo.camera Demo.started Demo.outcome.1.1 Demo.outcome.1.2).
  vm_compute. reflexivity.
Defined.

Lemma run_touches_only_its_files_witness :
  heap Demo.outcome.2 `prefix_of` heap Demo.second_outcome.2 ∧
  ∀ path, Forall (λ t, image_filename (wall t) ≠ path) Demo.camera →
          files Demo.second_outcome.2 !! path = files Demo.outcome.2 !! path.
Proof.
  apply (run_touches_only_its_files Demo.classifier Demo.stamp Demo.jpeg
           Demo.camera Demo.outcome.2
           Demo.second_outcome.1.1 Demo.second_outcome.1.2).
  vm_compute. reflexivity.
Defined.

Lemma artifact_survives_witness :
  files Demo.outcome.2 !! image_filename (wall Scenario.second_frame)
    = Some (annotated Demo.classifier Demo.stamp Scenario.second_frame).
Proof.
  apply (artifact_survives Demo.classifier Demo.stamp Demo.jpeg
           [Scenario.first_frame] Scenario.second_frame [Scenario.third_frame]
           Demo.started Demo.outcome.1.1).
  - vm_compute. reflexivity.
  - unfold datetime_valid. cbn. lia.
  - constructor; [|constructor]. split.
    + unfold datetime_valid. cbn. lia.
    + intros (_ & _ & _ & _ & _ & Hs). discriminate Hs.
Defined.

Lemma pipeline_keeps_store_invariant_witness :
  db_wf (dbfile Demo.outcome.2) ∧ NoDup (id <$> db_rows (dbfile Demo.outcome.2)).
Proof.
  apply (pipeline_keeps_store_invariant Demo.classifier Demo.stamp Demo.jpeg
           Demo.camera Demo.started Demo.outcome.1.1 Demo.outcome.1.2).
  - split; [constructor|split; [constructor|]]. cbn. unfold INT64_MAX. lia.
  - vm_compute. reflexivity.
Defined.

Lemma payloads_are_annotated_frames_witness :
  Scenario.failed_outcome.1.1
    = (λ t, chunk (Demo.jpeg (annotated Demo.classifier Demo.stamp t)))
        <$> take (length Scenario.failed_outcome.1.1) Demo.camera ∧
  (Scenario.failed_outcome.1.2 = StopIteration →
   length Scenario.failed_outcome.1.1 = length Demo.camera).
Proof.
  apply (payloads_are_annotated_frames Demo.classifier Demo.stamp Demo.jpeg
           Demo.camera Scenario.unstarted
           Scenario.failed_outcome.1.1 Scenario.failed_outcome.1.2
           Scenario.failed_outcome.2).
  vm_compute. reflexivity.
Defined.

Lemma users_after_run_witness :
  users_rows (dbfile (Demo.generate [Scenario.first_frame; Scenario.third_frame]
                                    Demo.started).2) =
    inr (reverse
           (imap (λ k t, record_of Demo.classifier t
                           (largest_rowid_ever (Table [] 0) + 1 + Z.of_nat k))
                 (take (length (Demo.generate
                                  [Scenario.first_frame; Scenario.third_frame]
                                  Demo.started).1.1)
                       [Scenario.first_frame; Scenario.third_frame]))
         ++ reverse (rows (Table [] 0))).
Proof.
  apply (users_after_run Demo.classifier Demo.stamp Demo.jpeg
           [Scenario.first_frame; Scenario.third_frame] Demo.started
           (Table [] 0)
           (Demo.generate [Scenario.first_frame; Scenario.third_frame]
                          Demo.started).1.1
           (Demo.generate [Scenario.first_frame; Scenario.third_frame]
                          Demo.started).1.2).
  - reflexivity.
  - constructor.
  - constructor.
  - repeat constructor.
  - vm_compute. reflexivity.
Defined.

(** * The code in its environment *)

(** ** [save_user_result] and the write lock *)

Section LockFacts.

Implicit Types (db : database) (tbl : table).

(** Without a leaked connection the outcome and the database are the
    ones described by [save_user_result]. *)
Lemma save_user_result_env_unlocked n m p e now db :
  (save_user_result_env n m p e now false db).1
    = save_user_result n m p e now db.
Proof.
  unfold save_user_result_env, save_user_result.
  destruct db as [tbl|]; [|done].
  destruct (bind n); [done|]. destruct (bind m); [done|].
  destruct (bind p); [done|]. destruct (bind e); [done|].
  destruct (insert_users _ _ _ _ _ _) as [[]|]; done.
Qed.

(** While the lock is held no call gets through, and nothing changes. *)
Lemma save_user_result_env_locked n m p e now db :
  ∃ err, save_user_result_env n m p e now true db = (inl err, db, true).
Proof.
  unfold save_user_result_env.
  destruct db as [tbl|]; [|by eexists].
  destruct (bind n); [by eexists|]. destruct (bind m); [by eexists|].
  destruct (bind p); [by eexists|]. destruct (bind e); [by eexists|].
  by eexists.
Qed.

(** The call as the pipeline makes it never leaves a lock behind: its
    name and mode pass the constraints. *)
Lemma save_user_result_env_pipeline path e now locked db :
  (save_user_result_env (PyStr "Anonymous") (PyStr "online") (PyStr path) e now
                        locked db).2 = locked.
Proof.
  unfold save_user_result_env, insert_users.
  destruct db as [tbl|]; [|done]. cbn.
  destruct (bind e); [done|]. destruct locked; [done|].
  unfold new_rowid. by case_bool_decide.
Qed.

(** X1: the calls that are accepted.  For arguments that are [None], a
    [str], an [int] or an object [sqlite3] has no adapter for,
    [save_user_result] returns normally exactly when no leaked
    connection holds the write lock, the table exists and has a rowid
    left, the name is stored as a text (it is not [None] and can be
    bound), path and emotion can be bound, and the mode is [None],
    'online' or 'offline'. *)
Theorem save_user_result_accepts_iff (name mode path emotion : pyval)
    (now : Z) (locked : bool) (db : database) :
  (∃ db' locked',
     save_user_result_env name mode path emotion now locked db
       = (inr (), db', locked')) ↔
  locked = false ∧
  (∃ tbl, db = Some tbl ∧ largest_rowid_ever tbl < INT64_MAX) ∧
  is_Some (stored_text name) ∧
  bindable path = true ∧ bindable emotion = true ∧
  (mode = PyNone ∨ mode = PyStr "online" ∨ mode = PyStr "offline").
Proof.
  rewrite <-save_user_result_accepts_unlocked. split.
  - intros (db' & locked' & Hs). destruct locked.
    + destruct (save_user_result_env_locked name mode path emotion now db)
        as [err Herr]. congruence.
    + split; [done|]. exists db'.
      by rewrite <-save_user_result_env_unlocked, Hs.
  - intros [-> [db' Hs]].
    pose proof (save_user_result_env_unlocked name mode path emotion now db)
      as Henv.
    destruct (save_user_result_env name mode path emotion now false db)
      as [[r d] l]. cbn in Henv. exists d, l. congruence.
Qed.

End LockFacts.

(** ** Iterations and runs in their environment *)

Section EnvironmentFacts.

Context {image : Type}.
Variable analyze : image → analysis.
Variable putText : image → string → image.
Variable imencode : image → list Byte.byte.

Implicit Types (t : tick (image:=image)) (w : world (image:=image)).
Implicit Types (cam : list (tick (image:=image))).

#[local] Abbreviation bodyw := (loop_body_env analyze putText imencode).
#[local] Abbreviation runw := (generate_frames_env analyze putText imencode).
#[local] Abbreviation label := (emotion_of analyze).
#[local] Abbreviation drawn := (annotated analyze putText).

Lemma bindw_run {A B} (m : MW A) (f : A → MW B) w :
  (m ≫= f) w =
  match m w with
  | (inl e, w') => (inl e, w')
  | (inr a, w') => f a w'
  end.
Proof. reflexivity. Qed.

Lemma lift_run {A} (m : M A) w :
  lift m w =
  ((m (running w)).1, World (m (running w)).2 (captured w) (write_locked w)).
Proof. unfold lift. by destruct (m (running w)). Qed.

Lemma alter_last {A} (f : A → A) (l : list A) (x : A) :
  alter f (length l) (l ++ [x]) = l ++ [f x].
Proof.
  replace (length l) with (length l + 0)%nat by lia. by rewrite alter_app_r.
Qed.

(** The iteration in closed form.  The frame is drawn on first; then
    [os.makedirs] may end the iteration; otherwise the picture is written
    and the outcome is that of the insert. *)
Lemma loop_body_env_run t w :
  bodyw t w =
  let σ := running w in
  let path := image_filename (wall t) in
  match makedirs_exist_ok (captured w) with
  | inl e =>
      (inl e,
       World (State (heap σ ++ [drawn t]) (files σ) (dbfile σ))
             (captured w) (write_locked w))
  | inr c =>
      let r := save_user_result_env (PyStr "Anonymous") (PyStr "online")
                 (PyStr path) (label (frame t)) (utc t)
                 (write_locked w) (dbfile σ) in
      (match r.1.1 with
       | inl e => inl e
       | inr _ => inr (chunk (imencode (drawn t)))
       end,
       World (State (heap σ ++ [drawn t]) (<[path := drawn t]> (files σ)) r.1.2)
             c r.2)
  end.
Proof.
  unfold loop_body_env.
  rewrite bindw_run, lift_run. unfold new_array.
  cbn.
  rewrite bindw_run, lift_run.
  rewrite (try_block_run analyze _ _ (frame t)) by by apply list_lookup_middle.
  cbn.
  rewrite bindw_run, lift_run. unfold cv2_putText.
  cbn.
  rewrite alter_last. fold (drawn t).
  rewrite bindw_run. unfold os_makedirs. cbn.
  destruct (makedirs_exist_ok (captured w)) as [e|c]; [done|].
  rewrite bindw_run, lift_run.
  rewrite (cv2_imwrite_run _ _ _ (drawn t)) by by apply list_lookup_middle.
  cbn.
  rewrite bindw_run. unfold db_save_user_result_env.
  cbn.
  destruct (save_user_result_env _ _ _ _ _ _ _) as [[[e|[]] db'] l']; [done|].
  rewrite bindw_run, lift_run.
  rewrite (cv2_imencode_run imencode _ _ (drawn t)) by by apply list_lookup_middle.
  done.
Qed.

(** Where [captured] can be made and no lock is held, the iteration is
    the one described by [loop_body]. *)
Lemma loop_body_env_benign t w :
  captured w ≠ RegularFile → write_locked w = false →
  bodyw t w =
  ((loop_body analyze putText imencode t (running w)).1,
   World (loop_body analyze putText imencode t (running w)).2 Directory false).
Proof.
  intros Hc Hl. rewrite loop_body_env_run, loop_body_run. cbn zeta.
  assert (makedirs_exist_ok (captured w) = inr Directory) as ->
    by by destruct (captured w).
  rewrite Hl.
  pose proof (save_user_result_env_pipeline (image_filename (wall t))
                (label (frame t)) (utc t) false (dbfile (running w))) as Hlock.
  pose proof (save_user_result_env_unlocked (PyStr "Anonymous") (PyStr "online")
                (PyStr (image_filename (wall t))) (label (frame t)) (utc t)
                (dbfile (running w))) as Hsame.
  destruct (save_user_result_env _ _ _ _ _ _ _) as [[r d] l].
  cbn in Hlock, Hsame. subst l. by rewrite <-Hsame.
Qed.

(** A failed iteration has drawn on the camera's array and has left the
    table as it was. *)
Lemma loop_body_env_failure t w (e : exn) w' :
  bodyw t w = (inl e, w') →
  dbfile (running w') = dbfile (running w).
Proof.
  rewrite loop_body_env_run. cbn zeta.
  destruct (makedirs_exist_ok (captured w)) as [err|c].
  { by intros [= _ <-]. }
  destruct (write_locked w).
  - destruct (save_user_result_env_locked (PyStr "Anonymous") (PyStr "online")
                (PyStr (image_filename (wall t))) (label (frame t)) (utc t)
                (dbfile (running w))) as [err ->].
    by intros [= _ <-].
  - pose proof (save_user_result_env_unlocked (PyStr "Anonymous") (PyStr "online")
                  (PyStr (image_filename (wall t))) (label (frame t)) (utc t)
                  (dbfile (running w))) as Hsame.
    destruct (save_user_result_env _ _ _ _ _ _ _) as [[[err|[]] d] l]; [|done].
    cbn in Hsame. symmetry in Hsame.
    apply save_user_result_failure in Hsame as ->. by intros [= _ <-].
Qed.

(** An iteration that yields ran in a world where [captured] could be
    made and no lock was held, and did what [loop_body] describes. *)
Lemma loop_body_env_success t w payload w' :
  bodyw t w = (inr payload, w') →
  captured w ≠ RegularFile ∧ write_locked w = false ∧
  loop_body analyze putText imencode t (running w) = (inr payload, running w') ∧
  captured w' = Directory ∧ write_locked w' = false.
Proof.
  intros Hbody.
  assert (Hc : captured w ≠ RegularFile).
  { intros Hc. rewrite loop_body_env_run, Hc in Hbody. done. }
  assert (Hl : write_locked w = false).
  { destruct (write_locked w) eqn:Hl; [|done].
    rewrite loop_body_env_run in Hbody. cbn zeta in Hbody.
    destruct (makedirs_exist_ok (captured w)); [done|].
    rewrite Hl in Hbody.
    destruct (save_user_result_env_locked (PyStr "Anonymous") (PyStr "online")
                (PyStr (image_filename (wall t))) (label (frame t)) (utc t)
                (dbfile (running w))) as [err Herr].
    by rewrite Herr in Hbody. }
  rewrite (loop_body_env_benign _ _ Hc Hl) in Hbody.
  destruct (loop_body analyze putText imencode t (running w)) as [r σ'].
  injection Hbody as -> <-. done.
Qed.

Lemma generate_frames_env_cons t cam w :
  runw (t :: cam) w =
  match bodyw t w with
  | (inl e, w') => ([], Propagated e, w')
  | (inr payload, w') =>
      let '(payloads, e, w'') := runw cam w' in (payload :: payloads, e, w'')
  end.
Proof. reflexivity. Qed.

(** The shape of every run: the chunks are those of the annotated frames
    from the first on; a run that reached [break] has yielded every
    frame; a run ended by an exception has yielded the frames before the
    one whose iteration raised it. *)
Lemma run_env_shape cam w payloads (e : ending) w' :
  runw cam w = (payloads, e, w') →
  payloads = (λ t, chunk (imencode (drawn t))) <$> take (length payloads) cam ∧
  (e = StopIteration → length payloads = length cam) ∧
  (∀ err, e = Propagated err →
     ∃ before t after w1,
       cam = before ++ t :: after ∧
       length payloads = length before ∧
       runw before w = (payloads, StopIteration, w1) ∧
       bodyw t w1 = (inl err, w')).
Proof.
  revert w payloads e w'. induction cam as [|t cam IH]; intros w payloads e w'.
  { intros [= <- <- <-]. split_and!; done. }
  rewrite generate_frames_env_cons.
  destruct (bodyw t w) as [[err|payload] w1] eqn:Hbody.
  { intros [= <- <- <-]. split_and!; [done..|].
    intros ? [= <-]. by exists [], t, cam, w. }
  destruct (runw cam w1) as [[ps e1] w2] eqn:Hrun.
  intros [= <- <- <-].
  destruct (IH _ _ _ _ Hrun) as (Hps & Hstop & Hfail).
  apply loop_body_env_success in Hbody as Hyield.
  destruct Hyield as (_ & _ & Hyield & _).
  apply loop_body_success in Hyield as (-> & _).
  split_and!.
  - cbn. by rewrite <-Hps.
  - intros He. cbn. by rewrite Hstop.
  - intros err He.
    destruct (Hfail _ He) as (before & t' & after & wk & -> & Hlen & Hb & Ht).
    exists (t :: before), t', after, wk. split_and!; [done| |..|done].
    + cbn. by rewrite Hlen.
    + by rewrite generate_frames_env_cons, Hbody, Hb.
Qed.

End EnvironmentFacts.

(** ** The pipeline's claims in the environment *)

Section EnvironmentClaims.

Context {image : Type}.
Variable analyze : image → analysis.
Variable putText : image → string → image.
Variable imencode : image → list Byte.byte.

Implicit Types (t : tick (image:=image)) (w : world (image:=image)).
Implicit Types (cam : list (tick (image:=image))).

#[local] Abbreviation bodyw := (loop_body_env analyze putText imencode).
#[local] Abbreviation runw := (generate_frames_env analyze putText imencode).
#[local] Abbreviation label := (emotion_of analyze).
#[local] Abbreviation drawn := (annotated analyze putText).

Lemma emotion_of_sentinel_classifier (img : image) :
  emotion_of sentinel_classifier img = PyStr "No face detected".
Proof.
  unfold emotion_of, try_body, sentinel_classifier. cbn.
  by rewrite lookup_singleton_eq.
Qed.

(** With [captured] makeable, no lock, a table that has a rowid left and
    a label that can be bound, the iteration yields. *)
Lemma loop_body_env_yields t w (tbl : table) (rowid : Z) :
  captured w ≠ RegularFile → write_locked w = false →
  dbfile (running w) = Some tbl → new_rowid tbl = inr rowid →
  bindable (label (frame t)) = true →
  bodyw t w =
  (inr (chunk (imencode (drawn t))),
   World (State (heap (running w) ++ [drawn t])
                (<[image_filename (wall t) := drawn t]> (files (running w)))
                (Some (Table (rows tbl ++ [record_of analyze t rowid]) rowid)))
         Directory false).
Proof.
  intros Hc Hl Hdb Hid Hb.
  by rewrite (loop_body_env_benign _ _ _ _ _ Hc Hl),
    (loop_body_yields _ _ _ _ _ _ _ Hdb Hid Hb).
Qed.

(** C1 (amended): when the [try] body fails on a frame (the classifier
    raises, or its result has no first entry or no dominant emotion), the
    label of the frame is the sentinel "No face detected", spelled with a
    capital N, and the failure does not leave the iteration: in every
    world the iteration is the one of a classifier that answered with the
    sentinel.  Where [captured] can be made a directory, no leaked
    connection holds the write lock and the table has a rowid left, the
    iteration appends a record carrying the sentinel and yields the
    annotated frame. *)
Theorem classifier_failure_gives_sentinel t w (e : exn) (tbl : table)
    (rowid : Z) :
  try_body analyze (frame t) = inl e →
  captured w ≠ RegularFile → write_locked w = false →
  dbfile (running w) = Some tbl → new_rowid tbl = inr rowid →
  label (frame t) = PyStr "No face detected" ∧
  (∀ w0, loop_body_env analyze putText imencode t w0
         = loop_body_env sentinel_classifier putText imencode t w0) ∧
  ∃ w',
    loop_body_env analyze putText imencode t w
      = (inr (chunk (imencode (putText (frame t) "Mood: No face detected"))), w') ∧
    db_rows (dbfile (running w')) =
      db_rows (dbfile (running w)) ++
        [Row rowid "Anonymous" (Some "online") (Some (image_filename (wall t)))
             (Some "No face detected") (utc t)].
Proof.
  intros Htry Hc Hl Hdb Hid.
  assert (Hlabel : label (frame t) = PyStr "No face detected")
    by (unfold emotion_of; by rewrite Htry).
  split_and!; [done| |].
  - intros w0. rewrite !loop_body_env_run. unfold annotated.
    by rewrite Hlabel, emotion_of_sentinel_classifier.
  - eexists. split.
    + rewrite (loop_body_env_yields _ _ _ _ Hc Hl Hdb Hid) by by rewrite Hlabel.
      unfold annotated. by rewrite Hlabel.
    + rewrite Hdb. cbn. unfold record_of. by rewrite Hlabel.
Qed.

(** The rows a run adds, by induction on the frames. *)
Lemma run_env_rows cam w payloads (e : ending) w' :
  runw cam w = (payloads, e, w') →
  ∃ new : list row,
    db_rows (dbfile (running w')) = db_rows (dbfile (running w)) ++ new ∧
    length new = length payloads ∧
    Forall2 (λ r t, r = record_of analyze t (id r)) new
            (take (length payloads) cam) ∧
    StronglySorted Z.lt (id <$> new) ∧
    Forall (λ r, Forall (λ old, id old < id r) (db_rows (dbfile (running w))))
           new.
Proof.
  revert w payloads e w'.
  induction cam as [|t cam IH]; intros w payloads e w'.
  { intros [= <- _ <-]. exists []. rewrite app_nil_r.
    split_and!; [done..|constructor|constructor|constructor]. }
  rewrite generate_frames_env_cons.
  destruct (bodyw t w) as [[err|payload] w1] eqn:Hbody.
  { intros [= <- _ <-]. apply loop_body_env_failure in Hbody as ->.
    exists []. rewrite app_nil_r.
    split_and!; [done..|constructor|constructor|constructor]. }
  destruct (runw cam w1) as [[ps e1] w2] eqn:Hrun.
  intros [= <- _ <-].
  apply loop_body_env_success in Hbody as (_ & _ & Hbody & _).
  apply loop_body_success
    in Hbody as (_ & _ & _ & tbl & rowid & Hdb & Hid & Hdb1).
  apply IH in Hrun as (new & Hrows & Hlen & Hrec & Hsorted & Hfresh).
  rewrite Hdb1 in Hrows, Hfresh. cbn in Hrows, Hfresh.
  exists (record_of analyze t rowid :: new). rewrite Hdb. cbn.
  split_and!.
  - by rewrite Hrows, <-app_assoc.
  - by rewrite Hlen.
  - by constructor.
  - constructor; [done|]. rewrite Forall_fmap.
    eapply Forall_impl; [exact Hfresh|]. intros r Hr. cbn.
    rewrite Forall_app, Forall_singleton in Hr. by destruct Hr as [_ Hr].
  - constructor.
    + rewrite Forall_forall. intros old Hold. cbn.
      by eapply new_rowid_fresh.
    + eapply Forall_impl; [exact Hfresh|]. intros r Hr.
      rewrite Forall_app in Hr. by destruct Hr.
Qed.


(** C5 (amended): the annotation step draws on the array it is given, in
    place.  After [cv2.putText] the frame's array holds the annotated
    picture, no array has been added and no other array has changed.  In
    a whole iteration the only array brought into being is the camera's;
    after the iteration it holds the annotated picture, and it is the
    contents of this same array that [cv2.imwrite] stored under the
    frame's path and that [cv2.imencode] turned into the yielded chunk. *)
Theorem annotation_is_in_place (l : nat) (text : string) (σ : state)
    (img : image) :
  heap σ !! l = Some img →
  let σ' := (cv2_putText putText l text σ).2 in
  heap σ' !! l = Some (putText img text) ∧
  length (heap σ') = length (heap σ) ∧
  (∀ l', l' ≠ l → heap σ' !! l' = heap σ !! l') ∧
  ∀ t w,
    let r := loop_body_env analyze putText imencode t w in
    let frame_array := length (heap (running w)) in
    let picture := putText (frame t) ("Mood: " +:+ py_str (label (frame t))) in
    heap (running r.2) = heap (running w) ++ [picture] ∧
    heap (running r.2) !! frame_array = Some picture ∧
    (captured w ≠ RegularFile →
     files (running r.2) !! image_filename (wall t)
       = heap (running r.2) !! frame_array) ∧
    (∀ payload, r.1 = inr payload →
       (λ array, chunk (imencode array)) <$> heap (running r.2) !! frame_array
         = Some payload).
Proof.
  intros Hl. cbn zeta. split_and!.
  - cbn. by rewrite list_lookup_alter_eq, Hl.
  - cbn. by rewrite length_alter.
  - intros l' Hne. cbn. by rewrite list_lookup_alter_ne.
  - intros t w.
    assert (Hheap : heap (running (bodyw t w).2)
                    = heap (running w) ++ [drawn t]).
    { rewrite loop_body_env_run. cbn zeta.
      by destruct (makedirs_exist_ok (captured w)). }
    assert (Hat : heap (running (bodyw t w).2) !! length (heap (running w))
                  = Some (drawn t)).
    { rewrite Hheap. by apply list_lookup_middle. }
    split_and!; [done|done| |].
    + intros Hc. rewrite Hat, loop_body_env_run. cbn zeta.
      assert (makedirs_exist_ok (captured w) = inr Directory) as ->
        by by destruct (captured w).
      cbn. apply lookup_insert_eq.
    + intros payload Hpayload. rewrite Hat. cbn.
      rewrite loop_body_env_run in Hpayload. cbn zeta in Hpayload.
      destruct (makedirs_exist_ok (captured w)); [done|]. cbn in Hpayload.
      destruct (save_user_result_env _ _ _ _ _ _ _).1.1; [done|].
      by injection Hpayload as <-.
Qed.


(** X9: why an iteration can fail.  With a writable working directory
    and a healthy disk, an exception leaves an iteration only from
    [os.makedirs] or from the insert, and it is one of five: a file named
    [captured] is in the way, the table does not exist, the label cannot
    be bound, a leaked connection holds the write lock, or the table has
    no rowid left.  It is never a constraint violation: the pipeline's
    own name and mode always pass NOT NULL and CHECK. *)
Theorem loop_body_failure_causes t w (e : exn) w' :
  loop_body_env analyze putText imencode t w = (inl e, w') →
  ((captured w = RegularFile ∧
    e = OtherError "FileExistsError: [Errno 17] File exists: 'captured'") ∨
   (captured w ≠ RegularFile ∧ dbfile (running w) = None ∧
    e = OperationalError "no such table: users") ∨
   (captured w ≠ RegularFile ∧ is_Some (dbfile (running w)) ∧
    bind (label (frame t)) = inl e) ∨
   (captured w ≠ RegularFile ∧ is_Some (dbfile (running w)) ∧
    bindable (label (frame t)) = true ∧ write_locked w = true ∧
    e = OperationalError "database is locked") ∨
   (captured w ≠ RegularFile ∧ bindable (label (frame t)) = true ∧
    write_locked w = false ∧
    (∃ tbl, dbfile (running w) = Some tbl ∧
            INT64_MAX ≤ largest_rowid_ever tbl) ∧
    e = OperationalError "database or disk is full")) ∧
  ∀ c, e ≠ IntegrityError c.
Proof.
  rewrite loop_body_env_run. cbn zeta.
  destruct (captured w) eqn:Hc; cbn [makedirs_exist_ok].
  3: { intros [= <- _]. split; [by left|done]. }
  all: unfold save_user_result_env, insert_users, new_rowid, bindable.
  all: destruct (dbfile (running w)) as [tbl|]; cbn;
    [|intros [= <- _]; split; [right; left; by split_and!|done]].
  all: destruct (bind (label (frame t))) as [err|v] eqn:Hbind; cbn;
    [intros [= <- _]; split;
       [right; right; left; by split_and!|by eapply bind_error]|].
  all: destruct (write_locked w); cbn;
    [intros [= <- _]; split;
       [right; right; right; left; by split_and!|done]|].
  all: case_bool_decide as Hroom; cbn; [done|].
  all: intros [= <- _]; split; [|done].
  all: right; right; right; right; split_and!; [done..| |done].
  all: exists tbl; split; [done|lia].
Qed.

End EnvironmentClaims.

(** ** The claims in the environment, on concrete data *)

Lemma classifier_failure_gives_sentinel_witness :
  emotion_of Demo.classifier (frame Scenario.dark_frame)
    = PyStr "No face detected" ∧
  (∀ w0, loop_body_env Demo.classifier Demo.stamp Demo.jpeg Scenario.dark_frame w0
         = loop_body_env sentinel_classifier Demo.stamp Demo.jpeg
                         Scenario.dark_frame w0) ∧
  ∃ w',
    loop_body_env Demo.classifier Demo.stamp Demo.jpeg Scenario.dark_frame
                  Scenario.ready
      = (inr (chunk (Demo.jpeg (Demo.stamp (frame Scenario.dark_frame)
                                           "Mood: No face detected"))), w') ∧
    db_rows (dbfile (running w')) =
      db_rows (dbfile (running Scenario.ready)) ++
        [Row 1 "Anonymous" (Some "online")
             (Some (image_filename (wall Scenario.dark_frame)))
             (Some "No face detected") (utc Scenario.dark_frame)].
Proof.
  apply (classifier_failure_gives_sentinel Demo.classifier Demo.stamp Demo.jpeg
           Scenario.dark_frame Scenario.ready
           (OtherError "ValueError: Face could not be detected")
           (Table [] 0) 1); done.
Defined.


Lemma annotation_is_in_place_witness :
  heap (cv2_putText Demo.stamp 0 "Mood: happy" (State ["dark"] ∅ None)).2 !! 0%nat
    = Some (Demo.stamp "dark" "Mood: happy") ∧
  length (heap (cv2_putText Demo.stamp 0 "Mood: happy" (State ["dark"] ∅ None)).2)
    = length (heap (State (image:=string) ["dark"] ∅ None)) ∧
  (∀ l', l' ≠ 0%nat →
     heap (cv2_putText Demo.stamp 0 "Mood: happy" (State ["dark"] ∅ None)).2 !! l'
       = heap (State (image:=string) ["dark"] ∅ None) !! l') ∧
  ∀ t w,
    heap (running (loop_body_env Demo.classifier Demo.stamp Demo.jpeg t w).2)
      = heap (running w) ++
          [Demo.stamp (frame t)
             ("Mood: " +:+ py_str (emotion_of Demo.classifier (frame t)))] ∧
    heap (running (loop_body_env Demo.classifier Demo.stamp Demo.jpeg t w).2)
      !! length (heap (running w))
      = Some (Demo.stamp (frame t)
                ("Mood: " +:+ py_str (emotion_of Demo.classifier (frame t)))) ∧
    (captured w ≠ RegularFile →
     files (running (loop_body_env Demo.classifier Demo.stamp Demo.jpeg t w).2)
       !! image_filename (wall t)
       = heap (running (loop_body_env Demo.classifier Demo.stamp Demo.jpeg t w).2)
           !! length (heap (running w))) ∧
    (∀ payload,
       (loop_body_env Demo.classifier Demo.stamp Demo.jpeg t w).1 = inr payload →
       (λ array, chunk (Demo.jpeg array))
         <$> heap (running (loop_body_env Demo.classifier Demo.stamp Demo.jpeg
                                          t w).2)
               !! length (heap (running w))
         = Some payload).
Proof.
  apply (annotation_is_in_place Demo.classifier Demo.stamp Demo.jpeg
           0 "Mood: happy" (State ["dark"] ∅ None) "dark").
  reflexivity.
Defined.



Lemma loop_body_failure_causes_witness :
  ((captured Scenario.blocked = RegularFile ∧
    OtherError "FileExistsError: [Errno 17] File exists: 'captured'"
      = OtherError "FileExistsError: [Errno 17] File exists: 'captured'") ∨
   (captured Scenario.blocked ≠ RegularFile ∧
    dbfile (running Scenario.blocked) = None ∧
    OtherError "FileExistsError: [Errno 17] File exists: 'captured'"
      = OperationalError "no such table: users") ∨
   (captured Scenario.blocked ≠ RegularFile ∧
    is_Some (dbfile (running Scenario.blocked)) ∧
    bind (emotion_of Demo.classifier (frame Scenario.first_frame))
      = inl (OtherError "FileExistsError: [Errno 17] File exists: 'captured'")) ∨
   (captured Scenario.blocked ≠ RegularFile ∧
    is_Some (dbfile (running Scenario.blocked)) ∧
    bindable (emotion_of Demo.classifier (frame Scenario.first_frame)) = true ∧
    write_locked Scenario.blocked = true ∧
    OtherError "FileExistsError: [Errno 17] File exists: 'captured'"
      = OperationalError "database is locked") ∨
   (captured Scenario.blocked ≠ RegularFile ∧
    bindable (emotion_of Demo.classifier (frame Scenario.first_frame)) = true ∧
    write_locked Scenario.blocked = false ∧
    (∃ tbl, dbfile (running Scenario.blocked) = Some tbl ∧
            INT64_MAX ≤ largest_rowid_ever tbl) ∧
    OtherError "FileExistsError: [Errno 17] File exists: 'captured'"
      = OperationalError "database or disk is full")) ∧
  ∀ c, OtherError "FileExistsError: [Errno 17] File exists: 'captured'"
       ≠ IntegrityError c.
Proof.
  apply (loop_body_failure_causes Demo.classifier Demo.stamp Demo.jpeg
           Scenario.first_frame Scenario.blocked
           (OtherError "FileExistsError: [Errno 17] File exists: 'captured'")
           (Scenario.iteration_env Scenario.first_frame Scenario.blocked).2).
  vm_compute. reflexivity.
Defined.
